(** * NVStorage: the bit-to-coordinate mapping engine of [binary_to_3d.py]

    A shallow embedding of the three placement strategies
    ([binary_to_3d_sequential], [binary_to_3d_random_positions],
    [binary_to_3d_random_assignment]) and of the dispatching part of
    [binary_to_3d], followed by the properties of the specification that
    concern them.

    Python integers are [Z]; [%] and [//] are floor based and raise
    [ZeroDivisionError] on a zero divisor; the process-wide generator of the
    [random] module is an explicit state threaded through the calls. *)

From Stdlib Require Import String ZArith List Lia Bool Permutation.
From Stdlib Require Import Strings.Byte.
Import ListNotations.
Local Open Scope Z_scope.

(** ** Exceptions and the two effect layers *)

Inductive exn : Type :=
| ZeroDivisionError
| ValueError
| IndexError
| SystemExit.

Inductive res (A : Type) : Type :=
| Ok (a : A)
| Raise (e : exn).
Arguments Ok {A} a.
Arguments Raise {A} e.

Definition res_bind {A B} (m : res A) (k : A -> res B) : res B :=
  match m with
  | Ok a => k a
  | Raise e => Raise e
  end.

Declare Scope py_scope.
Delimit Scope py_scope with py.
Notation "x <- m ;; k" := (res_bind m (fun x => k))
  (at level 61, m at next level, right associativity) : py_scope.
Notation "' p <- m ;; k" := (res_bind m (fun p => k))
  (at level 61, p pattern, m at next level, right associativity) : py_scope.
Local Open Scope py_scope.

(** A [for] loop body either falls through to the next iteration or leaves
    the enclosing function with [return]. *)
Inductive flow (S R : Type) : Type :=
| Continue (s : S)
| Return (r : R).
Arguments Continue {S R} s.
Arguments Return {S R} r.

(** ** Python primitives used by the mapper *)

Definition py_mod (a b : Z) : res Z :=
  if b =? 0 then Raise ZeroDivisionError else Ok (a mod b).

Definition py_floordiv (a b : Z) : res Z :=
  if b =? 0 then Raise ZeroDivisionError else Ok (a / b).

(** [range(a, b)] and [range(n)]; empty when [b <= a]. *)
Definition py_range2 (a b : Z) : list Z :=
  map (fun k => a + Z.of_nat k) (seq 0 (Z.to_nat (b - a))).

Definition py_range (n : Z) : list Z := py_range2 0 n.

Definition len {A} (l : list A) : Z := Z.of_nat (length l).

(** [l[i]], with Python's negative indices and [IndexError]. *)
Definition getitem {A} (l : list A) (i : Z) : res A :=
  let j := if i <? 0 then i + len l else i in
  if (j <? 0) || (len l <=? j) then Raise IndexError
  else match nth_error l (Z.to_nat j) with
       | Some a => Ok a
       | None => Raise IndexError
       end.

(** [itertools.product(xs, ys, zs)]: the last component varies fastest. *)
Definition product3 {A} (xs ys zs : list A) : list (A * A * A) :=
  flat_map (fun x => flat_map (fun y => map (fun z => (x, y, z)) zs) ys) xs.

(** ** Data model *)

Definition coord : Type := Z * Z * Z.
Definition entry : Type := Z * Z * Z * Z.
Definition dimensions : Type := Z * Z * Z.

Definition entry_coord (e : entry) : coord := fst e.
Definition coords (r : list entry) : list coord := map entry_coord r.

Definition byte_val (b : byte) : Z := Z.of_N (Byte.to_N b).

(** [(byte >> (7 - bit_idx)) & 1] *)
Definition bit_of (byte : Z) (bit_idx : Z) : Z :=
  Z.land (Z.shiftr byte (7 - bit_idx)) 1.

Definition capacity (dims : dimensions) : Z :=
  let '(max_x, max_y, max_z) := dims in max_x * max_y * max_z.

(** What each strategy returns: the listing, the last byte index and the
    byte count. *)
Definition outcome : Type := list entry * Z * Z.

(** ** Sequential placement ([binary_to_3d_sequential]) *)

(** Lines 41-43 and 59-61: the row-major decoding of a linear position. *)
Definition position_to_xyz (dims : dimensions) (position : Z) : res coord :=
  let '(max_x, max_y, max_z) := dims in
  x <- py_mod position max_x ;;
  q <- py_floordiv position max_x ;;
  y <- py_mod q max_y ;;
  z <- py_floordiv position (max_x * max_y) ;;
  Ok (x, y, z).

(** The inner loop [for bit_idx in range(8)] of one byte. *)
Fixpoint sequential_bits (dims : dimensions) (total_positions : Z)
    (byte_idx total_bytes : Z) (byte : Z) (bit_idxs : list Z)
    (st : list entry * Z) : res (flow (list entry * Z) outcome) :=
  match bit_idxs with
  | [] => Ok (Continue st)
  | bit_idx :: rest =>
      let '(result, bit_position) := st in
      let bit := bit_of byte bit_idx in
      position <- py_mod bit_position total_positions ;;
      '(x, y, z) <- position_to_xyz dims position ;;
      let result := result ++ [(x, y, z, bit)] in
      let bit_position := bit_position + 1 in
      if total_positions <=? bit_position
      then Ok (Return (result, byte_idx, total_bytes))
      else sequential_bits dims total_positions byte_idx total_bytes byte rest
             (result, bit_position)
  end.

(** The outer loop [for byte_idx, byte in enumerate(binary_data)]. *)
Fixpoint sequential_bytes (dims : dimensions) (total_positions : Z)
    (total_bytes : Z) (bytes : list byte) (byte_idx : Z)
    (st : list entry * Z) : res (flow (list entry * Z) outcome) :=
  match bytes with
  | [] => Ok (Continue st)
  | b :: rest =>
      f <- sequential_bits dims total_positions byte_idx total_bytes
             (byte_val b) (py_range 8) st ;;
      match f with
      | Return r => Ok (Return r)
      | Continue st' =>
          sequential_bytes dims total_positions total_bytes rest
            (byte_idx + 1) st'
      end
  end.

(** The fill loop [for position in range(bit_position, total_positions)]. *)
Fixpoint sequential_fill (dims : dimensions) (default_bit : Z)
    (positions : list Z) (result : list entry) : res (list entry) :=
  match positions with
  | [] => Ok result
  | position :: rest =>
      '(x, y, z) <- position_to_xyz dims position ;;
      sequential_fill dims default_bit rest (result ++ [(x, y, z, default_bit)])
  end.

Definition binary_to_3d_sequential (binary_data : list byte)
    (dims : dimensions) (fill_empty : bool) (default_bit : Z) : res outcome :=
  let total_positions := capacity dims in
  f <- sequential_bytes dims total_positions (len binary_data) binary_data 0
         ([], 0) ;;
  match f with
  | Return r => Ok r
  | Continue (result, bit_position) =>
      result <-
        (if fill_empty && (bit_position <? total_positions)
         then sequential_fill dims default_bit
                (py_range2 bit_position total_positions) result
         else Ok result) ;;
      Ok (result, len binary_data - 1, len binary_data)
  end.

(** ** The [random] module

    [random.seed], [random.randint] and [random.shuffle] act on one
    process-wide generator.  Its state is a value of [rng]; the class records
    what the mapper relies on: [randint(a, b)] lands in [a..b] and [shuffle]
    rearranges its argument. *)

Class PyRandom : Type := {
  rng : Type;
  seeded : Z -> rng;
  draw : Z -> Z -> rng -> Z * rng;
  shuffled : forall {A : Type}, list A -> rng -> list A * rng;
  draw_range : forall a b g, a <= b -> a <= fst (draw a b g) <= b;
  shuffled_perm : forall (A : Type) (l : list A) g,
      Permutation l (fst (shuffled l g))
}.

Section Randomized.

Context {R : PyRandom}.

(** Code that reads or advances the generator and may raise. *)
Definition M (A : Type) : Type := rng -> res (A * rng).

Definition retM {A} (a : A) : M A := fun g => Ok (a, g).

Definition bindM {A B} (m : M A) (k : A -> M B) : M B :=
  fun g => match m g with
           | Ok (a, g') => k a g'
           | Raise e => Raise e
           end.

Definition liftM {A} (m : res A) : M A :=
  fun g => match m with
           | Ok a => Ok (a, g)
           | Raise e => Raise e
           end.

Notation "x <~ m ;; k" := (bindM m (fun x => k))
  (at level 61, m at next level, right associativity) : py_scope.
Notation "' p <~ m ;; k" := (bindM m (fun p => k))
  (at level 61, p pattern, m at next level, right associativity) : py_scope.

(** [numpy.random.seed] accepts only seeds in [0 .. 2**32 - 1]; the numpy
    generator itself is never read by the mapper. *)
Definition np_random_seed (seed : Z) : res unit :=
  if (seed <? 0) || (4294967296 <=? seed) then Raise ValueError else Ok tt.

(** [if seed is not None: random.seed(seed); np.random.seed(seed)] *)
Definition set_seed (seed : option Z) : M unit :=
  fun g => match seed with
           | None => Ok (tt, g)
           | Some s =>
               let g := seeded s in
               _ <- np_random_seed s ;;
               Ok (tt, g)
           end.

(** [random.randint(a, b)]: [ValueError] on an empty range. *)
Definition randint (a b : Z) : M Z :=
  fun g => if b <? a then Raise ValueError else Ok (draw a b g).

(** [random.shuffle(x)] *)
Definition shuffle {A} (x : list A) : M (list A) :=
  fun g => Ok (shuffled x g).

(** [list(product(range(max_x), range(max_y), range(max_z)))] *)
Definition all_coordinates (dims : dimensions) : list coord :=
  let '(max_x, max_y, max_z) := dims in
  product3 (py_range max_x) (py_range max_y) (py_range max_z).

(** ** Randomized-position placement ([binary_to_3d_random_positions]) *)

Fixpoint positions_bits (all_coords : list coord) (total_positions : Z)
    (byte_idx total_bytes : Z) (byte : Z) (bit_idxs : list Z)
    (st : list entry * Z) : res (flow (list entry * Z) outcome) :=
  match bit_idxs with
  | [] => Ok (Continue st)
  | bit_idx :: rest =>
      let '(result, bit_position) := st in
      let bit := bit_of byte bit_idx in
      if bit_position <? total_positions
      then
        '(x, y, z) <- getitem all_coords bit_position ;;
        let result := result ++ [(x, y, z, bit)] in
        let bit_position := bit_position + 1 in
        positions_bits all_coords total_positions byte_idx total_bytes byte
          rest (result, bit_position)
      else Ok (Return (result, byte_idx, total_bytes))
  end.

Fixpoint positions_bytes (all_coords : list coord) (total_positions : Z)
    (total_bytes : Z) (bytes : list byte) (byte_idx : Z)
    (st : list entry * Z) : res (flow (list entry * Z) outcome) :=
  match bytes with
  | [] => Ok (Continue st)
  | b :: rest =>
      f <- positions_bits all_coords total_positions byte_idx total_bytes
             (byte_val b) (py_range 8) st ;;
      match f with
      | Return r => Ok (Return r)
      | Continue st' =>
          positions_bytes all_coords total_positions total_bytes rest
            (byte_idx + 1) st'
      end
  end.

(** The fill loop [for i in range(bit_position, total_positions)]. *)
Fixpoint positions_fill (all_coords : list coord) (default_bit : Z)
    (idxs : list Z) (result : list entry) : res (list entry) :=
  match idxs with
  | [] => Ok result
  | i :: rest =>
      '(x, y, z) <- getitem all_coords i ;;
      positions_fill all_coords default_bit rest
        (result ++ [(x, y, z, default_bit)])
  end.

Definition binary_to_3d_random_positions (binary_data : list byte)
    (dims : dimensions) (fill_empty : bool) (default_bit : Z)
    (seed : option Z) : M outcome :=
  _ <~ set_seed seed ;;
  all_coords <~ shuffle (all_coordinates dims) ;;
  let total_positions := len all_coords in
  f <~ liftM (positions_bytes all_coords total_positions (len binary_data)
                binary_data 0 ([], 0)) ;;
  match f with
  | Return r => retM r
  | Continue (result, bit_position) =>
      result <~
        liftM (if fill_empty && (bit_position <? total_positions)
               then positions_fill all_coords default_bit
                      (py_range2 bit_position total_positions) result
               else Ok result) ;;
      retM (result, len binary_data - 1, len binary_data)
  end.

(** ** Randomized-assignment placement ([binary_to_3d_random_assignment]) *)

(** [result_dict]: a Python dictionary keeps its keys in the order of their
    first insertion, and storing under a key that is present replaces the
    value in place. *)
Definition dict : Type := list (coord * Z).

Definition coord_eqb (a b : coord) : bool :=
  let '(x, y, z) := a in
  let '(x', y', z') := b in
  (x =? x') && (y =? y') && (z =? z').

Fixpoint dict_set (d : dict) (k : coord) (v : Z) : dict :=
  match d with
  | [] => [(k, v)]
  | (k', v') :: rest =>
      if coord_eqb k' k then (k', v) :: rest
      else (k', v') :: dict_set rest k v
  end.

Fixpoint dict_get (d : dict) (k : coord) (default : Z) : Z :=
  match d with
  | [] => default
  | (k', v') :: rest => if coord_eqb k' k then v' else dict_get rest k default
  end.

Definition dict_items (d : dict) : list (coord * Z) := d.

(** The inner loop; leaving it by [break] or by exhaustion is the same to
    the outer loop, which tests [bit_count] again. *)
Fixpoint assignment_bits (dims : dimensions) (total_positions : Z)
    (byte : Z) (bit_idxs : list Z) (st : dict * Z) : M (dict * Z) :=
  match bit_idxs with
  | [] => retM st
  | bit_idx :: rest =>
      let '(result_dict, bit_count) := st in
      let '(max_x, max_y, max_z) := dims in
      let bit := bit_of byte bit_idx in
      x <~ randint 0 (max_x - 1) ;;
      y <~ randint 0 (max_y - 1) ;;
      z <~ randint 0 (max_z - 1) ;;
      let result_dict := dict_set result_dict (x, y, z) bit in
      let bit_count := bit_count + 1 in
      if total_positions <=? bit_count
      then retM (result_dict, bit_count)
      else assignment_bits dims total_positions byte rest
             (result_dict, bit_count)
  end.

Fixpoint assignment_bytes (dims : dimensions) (total_positions : Z)
    (bytes : list byte) (st : dict * Z) : M (dict * Z) :=
  match bytes with
  | [] => retM st
  | b :: rest =>
      st' <~ assignment_bits dims total_positions (byte_val b) (py_range 8)
               st ;;
      if total_positions <=? snd st'
      then retM st'
      else assignment_bytes dims total_positions rest st'
  end.

Definition binary_to_3d_random_assignment (binary_data : list byte)
    (dims : dimensions) (fill_empty : bool) (default_bit : Z)
    (seed : option Z) : M outcome :=
  _ <~ set_seed seed ;;
  let total_positions := capacity dims in
  '(result_dict, _) <~
    assignment_bytes dims total_positions binary_data ([], 0) ;;
  let result :=
    if fill_empty
    then map (fun '(x, y, z) => (x, y, z, dict_get result_dict (x, y, z) default_bit))
           (all_coordinates dims)
    else map (fun '((x, y, z), bit) => (x, y, z, bit)) (dict_items result_dict)
  in
  retM (result, len binary_data - 1, len binary_data).

(** ** The caller ([binary_to_3d], from the dispatch on the mode on) *)

(** [(item[2], item[1], item[0])] compared as tuples. *)
Definition key_le (a b : entry) : bool :=
  let '(xa, ya, za, _) := a in
  let '(xb, yb, zb, _) := b in
  (za <? zb) || ((za =? zb) && ((ya <? yb) || ((ya =? yb) && (xa <=? xb)))).

Fixpoint insert_sorted (e : entry) (l : list entry) : list entry :=
  match l with
  | [] => [e]
  | e' :: rest =>
      if key_le e e' then e :: e' :: rest else e' :: insert_sorted e rest
  end.

(** [result.sort(key=...)]: a stable sort. *)
Definition sort_zyx (result : list entry) : list entry :=
  fold_right insert_sorted [] result.

Definition mode_in (mapping_mode : string) (modes : list string) : bool :=
  existsb (String.eqb mapping_mode) modes.

(** What the caller emits: the lines written and, when the warning is
    printed, the two numbers it shows. *)
Record report : Type := {
  written : list entry;
  warning : option (Z * Z)
}.

Definition binary_to_3d (binary_data : list byte) (dims : dimensions)
    (mapping_mode : string) (fill_empty : bool) (default_bit : Z)
    (seed : option Z) : M report :=
  '(result, last_byte_idx, total_bytes) <~
    (if String.eqb mapping_mode "sequential"%string
     then liftM (binary_to_3d_sequential binary_data dims fill_empty
                   default_bit)
     else if String.eqb mapping_mode "random_positions"%string
     then binary_to_3d_random_positions binary_data dims fill_empty
            default_bit seed
     else if String.eqb mapping_mode "random_assignment"%string
     then binary_to_3d_random_assignment binary_data dims fill_empty
            default_bit seed
     else liftM (Raise SystemExit)) ;;
  let result :=
    if mode_in mapping_mode ["random_positions"%string; "random_assignment"%string]
    then sort_zyx result else result in
  let warning :=
    if (last_byte_idx <? total_bytes - 1) && negb fill_empty
    then Some (last_byte_idx + 1, total_bytes) else None in
  let total_positions := capacity dims in
  (* the summary divides filled_positions by total_positions *)
  _ <~ liftM (if total_positions =? 0 then Raise ZeroDivisionError
              else Ok tt) ;;
  retM {| written := result; warning := warning |}.

End Randomized.

(** * Vocabulary of the properties *)

Definition positive (dims : dimensions) : Prop :=
  let '(max_x, max_y, max_z) := dims in 0 < max_x /\ 0 < max_y /\ 0 < max_z.

Definition in_grid (dims : dimensions) (c : coord) : Prop :=
  let '(max_x, max_y, max_z) := dims in
  let '(x, y, z) := c in
  0 <= x < max_x /\ 0 <= y < max_y /\ 0 <= z < max_z.

(** The value [position_to_xyz] computes when no divisor is zero. *)
Definition decode (dims : dimensions) (position : Z) : coord :=
  let '(max_x, max_y, _) := dims in
  (position mod max_x, (position / max_x) mod max_y,
   position / (max_x * max_y)).

(** [x + y*max_x + z*max_x*max_y] *)
Definition encode (dims : dimensions) (c : coord) : Z :=
  let '(max_x, max_y, _) := dims in
  let '(x, y, z) := c in
  x + y * max_x + z * max_x * max_y.

(** The bits of the input, most significant first within each byte. *)
Definition stream (binary_data : list byte) : list Z :=
  flat_map (fun b => map (bit_of (byte_val b)) (py_range 8)) binary_data.

(** Bits laid down one after the other along an enumeration [f] of cells. *)
Fixpoint placed (f : nat -> coord) (start : nat) (bits : list Z)
  : list entry :=
  match bits with
  | [] => []
  | b :: rest => (f start, b) :: placed f (S start) rest
  end.

Definition defaults (f : nat -> coord) (default_bit : Z) (cells : list nat)
  : list entry :=
  map (fun i => (f i, default_bit)) cells.

(** The listing both truncating strategies build: the first [c] bits along
    [f], then the default bit on the cells the input did not reach. *)
Definition layout (f : nat -> coord) (bits : list Z) (c : nat)
    (fill_empty : bool) (default_bit : Z) : list entry :=
  placed f 0 (firstn c bits) ++
  (if fill_empty
   then defaults f default_bit (seq (length bits) (c - length bits))
   else []).

(** Row-major enumeration of the cells: [x] varies fastest. *)
Definition row_major (dims : dimensions) (i : nat) : coord :=
  decode dims (Z.of_nat i).

(** The last byte index [binary_to_3d_sequential] reports. *)
Definition sequential_last (total_bytes total_positions : Z) : Z :=
  if 8 * total_bytes <? total_positions then total_bytes - 1
  else (total_positions - 1) / 8.

(** Enumeration of the cells along a shuffled coordinate list. *)
Definition nth_cell (all_coords : list coord) (i : nat) : coord :=
  nth i all_coords (0, 0, 0).

(** The last byte index [binary_to_3d_random_positions] reports. *)
Definition positions_last (total_bytes total_positions : Z) : Z :=
  if 8 * total_bytes <=? total_positions then total_bytes - 1
  else total_positions / 8.

(** How a filled listing relates to the unfilled one: nothing placed is
    lost, and every other cell carries the default bit. *)
Definition fills (default_bit : Z) (sparse full : list entry) : Prop :=
  (forall e, In e sparse -> In e full) /\
  (forall c b, In (c, b) full ->
     In (c, b) sparse \/ (~ In c (coords sparse) /\ b = default_bit)).

(** The size invariant of the data model, for the listing without and with
    fill-empty. *)
Definition bounded_assignment (dims : dimensions) (default_bit : Z)
    (sparse full : list entry) : Prop :=
  NoDup (coords sparse) /\ len sparse <= capacity dims /\
  NoDup (coords full) /\ len full = capacity dims /\
  fills default_bit sparse full.

(** Seeds both [random.seed] and [numpy.random.seed] take. *)
Definition seed_ok (seed : option Z) : Prop :=
  match seed with
  | None => True
  | Some s => 0 <= s < 4294967296
  end.

(** The generator state the strategy starts from. *)
Definition reseed {R : PyRandom} (seed : option Z) (g : rng) : rng :=
  match seed with
  | None => g
  | Some s => seeded s
  end.

(** What the dictionary satisfies throughout the draw phase. *)
Definition dict_inv (dims : dimensions) (d : dict) : Prop :=
  NoDup (map fst d) /\ forall k, In k (map fst d) -> in_grid dims k.

(** The listing built from the final dictionary (lines 185-196). *)
Definition assignment_listing (dims : dimensions) (d : dict)
    (fill_empty : bool) (default_bit : Z) : list entry :=
  if fill_empty
  then map (fun c => (c, dict_get d c default_bit)) (all_coordinates dims)
  else d.

(** A listing that covers the whole grid with the default bit. *)
Definition default_grid (dims : dimensions) (default_bit : Z)
    (r : list entry) : Prop :=
  len r = capacity dims /\ NoDup (coords r) /\
  (forall c b, In (c, b) r -> in_grid dims c /\ b = default_bit) /\
  (forall c, in_grid dims c -> In (c, default_bit) r).

(** ** A concrete generator *)

(** A linear congruential generator; its shuffle is a rotation. *)
Module Lcg.

Definition next (g : Z) : Z := (1103515245 * g + 12345) mod 2147483648.

Definition draw (a b g : Z) : Z * Z :=
  let g' := next g in (a + g' mod (b - a + 1), g').

Definition shuffled {A : Type} (l : list A) (g : Z) : list A * Z :=
  let g' := next g in
  let k := Z.to_nat (g' mod Z.max 1 (Z.of_nat (length l))) in
  (skipn k l ++ firstn k l, g').

Lemma draw_range a b g : a <= b -> a <= fst (draw a b g) <= b.
Proof.
  intros Hab. unfold draw. cbn [fst].
  pose proof (Z.mod_pos_bound (next g) (b - a + 1) ltac:(lia)). lia.
Qed.

Lemma shuffled_perm (A : Type) (l : list A) g :
  Permutation l (fst (shuffled l g)).
Proof.
  unfold shuffled. cbn [fst].
  set (k := Z.to_nat _).
  rewrite <- (firstn_skipn k l) at 1. apply Permutation_app_comm.
Qed.

End Lcg.

#[export] Instance lcg_random : PyRandom := {|
  rng := Z;
  seeded := fun s => Z.abs s;
  draw := Lcg.draw;
  shuffled := @Lcg.shuffled;
  draw_range := Lcg.draw_range;
  shuffled_perm := Lcg.shuffled_perm
|}.

(** * Supporting lemmas *)

Section Decoding.

Variables max_x max_y max_z : Z.
Hypothesis Hx : 0 < max_x.
Hypothesis Hy : 0 < max_y.
Hypothesis Hz : 0 < max_z.

Lemma capacity_pos : 0 < capacity (max_x, max_y, max_z).
Proof. cbn. nia. Qed.

Lemma position_to_xyz_decode position :
  position_to_xyz (max_x, max_y, max_z) position = Ok (decode (max_x, max_y, max_z) position).
Proof.
  unfold position_to_xyz, py_mod, py_floordiv, decode.
  destruct (Z.eqb_spec max_x 0); [lia|].
  destruct (Z.eqb_spec max_y 0); [lia|].
  destruct (Z.eqb_spec (max_x * max_y) 0); [nia|].
  reflexivity.
Qed.

Lemma encode_decode position : encode (max_x, max_y, max_z) (decode (max_x, max_y, max_z) position) = position.
Proof.
  unfold encode, decode.
  rewrite <- (Z.div_div position max_x max_y) by lia.
  pose proof (Z.div_mod position max_x ltac:(lia)).
  pose proof (Z.div_mod (position / max_x) max_y ltac:(lia)).
  nia.
Qed.

Lemma decode_in_grid position :
  0 <= position < capacity (max_x, max_y, max_z) -> in_grid (max_x, max_y, max_z) (decode (max_x, max_y, max_z) position).
Proof.
  cbn. intros [H0 H1].
  pose proof (Z.mod_pos_bound position max_x Hx).
  pose proof (Z.mod_pos_bound (position / max_x) max_y Hy).
  repeat split; try lia.
  - apply Z.div_pos; nia.
  - apply Z.div_lt_upper_bound; nia.
Qed.

Lemma decode_encode c :
  in_grid (max_x, max_y, max_z) c ->
  0 <= encode (max_x, max_y, max_z) c < capacity (max_x, max_y, max_z) /\ decode (max_x, max_y, max_z) (encode (max_x, max_y, max_z) c) = c.
Proof.
  destruct c as [[x y] z]. cbn. intros (Hxr & Hyr & Hzr).
  assert (0 <= y * max_x <= (max_y - 1) * max_x) by nia.
  assert (0 < max_x * max_y) by nia.
  assert (0 <= z * (max_x * max_y) <= (max_z - 1) * (max_x * max_y)) by nia.
  split; [nia|].
  assert (E1 : (x + y * max_x + z * max_x * max_y) mod max_x = x).
  { replace (x + y * max_x + z * max_x * max_y)
      with (x + (y + z * max_y) * max_x) by ring.
    rewrite Z.mod_add by lia. apply Z.mod_small; lia. }
  assert (E2 : (x + y * max_x + z * max_x * max_y) / max_x = y + z * max_y).
  { replace (x + y * max_x + z * max_x * max_y)
      with (x + (y + z * max_y) * max_x) by ring.
    rewrite Z.div_add by lia. rewrite Z.div_small by lia. lia. }
  assert (E3 : (x + y * max_x + z * max_x * max_y) / (max_x * max_y) = z).
  { rewrite <- Z.div_div by lia. rewrite E2.
    rewrite Z.div_add by lia. rewrite Z.div_small by lia. lia. }
  rewrite E1, E2, E3.
  rewrite Z.mod_add by lia. rewrite Z.mod_small by lia. reflexivity.
Qed.

End Decoding.

(** ** Generic facts about listings *)

Lemma placed_app f start l1 l2 :
  placed f start (l1 ++ l2) =
  placed f start l1 ++ placed f (start + length l1) l2.
Proof.
  revert start. induction l1 as [|b l1 IH]; intros start; cbn.
  - now rewrite Nat.add_0_r.
  - rewrite IH. now rewrite Nat.add_succ_comm.
Qed.

Lemma coords_placed f start bits :
  coords (placed f start bits) = map f (seq start (length bits)).
Proof.
  revert start. induction bits as [|b bits IH]; intros start; cbn; [easy|].
  f_equal. apply IH.
Qed.

Lemma length_placed f start bits : length (placed f start bits) = length bits.
Proof.
  revert start. induction bits as [|b bits IH]; intros start; cbn; auto.
Qed.

Lemma nth_error_placed f start bits i b :
  nth_error bits i = Some b ->
  nth_error (placed f start bits) i = Some (f (start + i)%nat, b).
Proof.
  revert start i. induction bits as [|b0 bits IH]; intros start [|i]; cbn;
    try easy.
  - intros [= ->]. now rewrite Nat.add_0_r.
  - intros H. rewrite (IH (S start) i H). now rewrite Nat.add_succ_r.
Qed.

Lemma coords_defaults f d cells : coords (defaults f d cells) = map f cells.
Proof.
  unfold coords, defaults. rewrite map_map. reflexivity.
Qed.

Lemma seq_from start n : seq start n = map (fun j => (start + j)%nat) (seq 0 n).
Proof.
  revert start. induction n as [|n IH]; intros start; cbn; [easy|].
  rewrite Nat.add_0_r. f_equal.
  rewrite (IH (S start)), (IH 1%nat), map_map.
  apply map_ext. intros j. lia.
Qed.

Lemma py_range2_nat (k : nat) (c : Z) :
  py_range2 (Z.of_nat k) c = map Z.of_nat (seq k (Z.to_nat c - k)).
Proof.
  unfold py_range2.
  replace (Z.to_nat (c - Z.of_nat k)) with (Z.to_nat c - k)%nat by lia.
  rewrite (seq_from k), map_map. apply map_ext. intros j. lia.
Qed.

Lemma stream_cons b rest :
  stream (b :: rest) = map (bit_of (byte_val b)) (py_range 8) ++ stream rest.
Proof. reflexivity. Qed.

Lemma range_8 : py_range 8 = [0; 1; 2; 3; 4; 5; 6; 7].
Proof. reflexivity. Qed.

Lemma length_byte_bits byte : length (map (bit_of byte) (py_range 8)) = 8%nat.
Proof. now rewrite length_map, range_8. Qed.

Lemma length_stream data : length (stream data) = (8 * length data)%nat.
Proof.
  induction data as [|b data IH]; [easy|].
  rewrite stream_cons, length_app, IH, length_byte_bits. cbn [length]. lia.
Qed.

(** ** The sequential loops, characterised *)

Section SequentialLoops.

Variables max_x max_y max_z : Z.
Hypothesis Hx : 0 < max_x.
Hypothesis Hy : 0 < max_y.
Hypothesis Hz : 0 < max_z.

Lemma sequential_bits_spec byte_idx total_bytes byte bit_idxs :
  forall result (n : nat),
    Z.of_nat n < capacity (max_x, max_y, max_z) ->
    sequential_bits (max_x, max_y, max_z) (capacity (max_x, max_y, max_z))
      byte_idx total_bytes byte bit_idxs (result, Z.of_nat n) =
    Ok (if (n + length bit_idxs <? Z.to_nat (capacity (max_x, max_y, max_z)))%nat
        then Continue
               (result ++ placed (row_major (max_x, max_y, max_z)) n
                            (map (bit_of byte) bit_idxs),
                Z.of_nat (n + length bit_idxs))
        else Return
               (result ++ placed (row_major (max_x, max_y, max_z)) n
                            (firstn (Z.to_nat (capacity (max_x, max_y, max_z)) - n)
                               (map (bit_of byte) bit_idxs)),
                byte_idx, total_bytes)).
Proof.
  set (dims := (max_x, max_y, max_z)). set (C := capacity dims).
  induction bit_idxs as [|bit_idx rest IH]; intros result n Hn.
  - cbn [sequential_bits length map placed].
    rewrite Nat.add_0_r, app_nil_r.
    destruct (Nat.ltb_spec n (Z.to_nat C)); [reflexivity | lia].
  - cbn [sequential_bits length map].
    unfold py_mod. destruct (Z.eqb_spec C 0) as [E|_]; [lia|].
    cbn [res_bind]. rewrite Z.mod_small by lia.
    unfold dims at 1. rewrite position_to_xyz_decode by assumption.
    fold dims. cbn [res_bind].
    change (decode dims (Z.of_nat n)) with (row_major dims n).
    destruct (row_major dims n) as [[x y] z] eqn:Ef.
    destruct (Z.leb_spec C (Z.of_nat n + 1)) as [Hfull|Hroom].
    + destruct (Nat.ltb_spec (n + S (length rest)) (Z.to_nat C)); [lia|].
      replace (Z.to_nat C - n)%nat with 1%nat by lia.
      cbn [firstn placed]. rewrite Ef. reflexivity.
    + replace (Z.of_nat n + 1) with (Z.of_nat (S n)) by lia.
      rewrite IH by lia.
      replace (S n + length rest)%nat with (n + S (length rest))%nat by lia.
      replace (Z.to_nat C - n)%nat with (S (Z.to_nat C - S n)) by lia.
      cbn [firstn placed]. rewrite Ef, <- !app_assoc. reflexivity.
Qed.

Lemma sequential_bytes_spec total_bytes bytes :
  forall byte_idx result (n : nat),
    Z.of_nat n < capacity (max_x, max_y, max_z) ->
    sequential_bytes (max_x, max_y, max_z) (capacity (max_x, max_y, max_z))
      total_bytes bytes byte_idx (result, Z.of_nat n) =
    Ok (if (n + 8 * length bytes <? Z.to_nat (capacity (max_x, max_y, max_z)))%nat
        then Continue
               (result ++ placed (row_major (max_x, max_y, max_z)) n
                            (stream bytes),
                Z.of_nat (n + 8 * length bytes))
        else Return
               (result ++ placed (row_major (max_x, max_y, max_z)) n
                            (firstn (Z.to_nat (capacity (max_x, max_y, max_z)) - n)
                               (stream bytes)),
                byte_idx +
                  (capacity (max_x, max_y, max_z) - Z.of_nat n - 1) / 8,
                total_bytes)).
Proof.
  set (dims := (max_x, max_y, max_z)). set (C := capacity dims).
  induction bytes as [|b rest IH]; intros byte_idx result n Hn.
  - cbn [sequential_bytes length stream flat_map placed].
    rewrite Nat.mul_0_r, Nat.add_0_r, app_nil_r.
    destruct (Nat.ltb_spec n (Z.to_nat C)); [reflexivity | lia].
  - cbn [sequential_bytes].
    unfold dims at 1, C at 1.
    rewrite sequential_bits_spec by assumption.
    fold dims. fold C. cbn [res_bind].
    rewrite stream_cons. set (bits := map (bit_of (byte_val b)) (py_range 8)).
    assert (Hbits : length bits = 8%nat) by apply length_byte_bits.
    rewrite range_8. cbn [length].
    destruct (Nat.ltb_spec (n + 8) (Z.to_nat C)) as [Hroom|Hfull].
    + replace (Z.of_nat (n + 8)) with (Z.of_nat (n + 8)%nat) by reflexivity.
      rewrite IH by lia.
      replace (n + 8 + 8 * length rest)%nat
        with (n + 8 * S (length rest))%nat by lia.
      rewrite firstn_app, Hbits.
      rewrite (firstn_all2 (n := Z.to_nat C - n) bits) by lia.
      rewrite !placed_app, Hbits, <- ?app_assoc.
      replace (Z.to_nat C - (n + 8))%nat with (Z.to_nat C - n - 8)%nat by lia.
      replace (byte_idx + 1 + (C - Z.of_nat (n + 8) - 1) / 8)
        with (byte_idx + (C - Z.of_nat n - 1) / 8).
      2:{ replace (C - Z.of_nat n - 1) with (C - Z.of_nat (n + 8) - 1 + 1 * 8)
            by lia.
          rewrite Z.div_add by lia. lia. }
      reflexivity.
    + destruct (Nat.ltb_spec (n + 8 * S (length rest)) (Z.to_nat C)); [lia|].
      rewrite firstn_app, Hbits.
      replace (Z.to_nat C - n - 8)%nat with 0%nat by lia.
      cbn [firstn]. rewrite app_nil_r.
      rewrite (Z.div_small (C - Z.of_nat n - 1)) by lia.
      rewrite Z.add_0_r. reflexivity.
Qed.

Lemma sequential_fill_spec default_bit (cells : list nat) :
  forall result,
    sequential_fill (max_x, max_y, max_z) default_bit (map Z.of_nat cells)
      result =
    Ok (result ++ defaults (row_major (max_x, max_y, max_z)) default_bit cells).
Proof.
  induction cells as [|i cells IH]; intros result; cbn [map sequential_fill].
  - cbn. now rewrite app_nil_r.
  - rewrite position_to_xyz_decode by assumption. cbn [res_bind].
    change (decode (max_x, max_y, max_z) (Z.of_nat i))
      with (row_major (max_x, max_y, max_z) i).
    destruct (row_major (max_x, max_y, max_z) i) as [[x y] z] eqn:Ef.
    rewrite IH. cbn [defaults map]. rewrite Ef, <- app_assoc. reflexivity.
Qed.

Lemma sequential_spec binary_data fill_empty default_bit :
  binary_to_3d_sequential binary_data (max_x, max_y, max_z) fill_empty
    default_bit =
  Ok (layout (row_major (max_x, max_y, max_z)) (stream binary_data)
        (Z.to_nat (capacity (max_x, max_y, max_z))) fill_empty default_bit,
      sequential_last (len binary_data) (capacity (max_x, max_y, max_z)),
      len binary_data).
Proof.
  set (dims := (max_x, max_y, max_z)).
  pose proof (capacity_pos _ _ _ Hx Hy Hz) as HC. fold dims in HC.
  unfold binary_to_3d_sequential, layout, sequential_last.
  set (C := capacity dims) in *.
  pose proof (sequential_bytes_spec (len binary_data) binary_data 0 []
                0%nat ltac:(cbn; nia)) as E.
  change (Z.of_nat 0) with 0 in E. fold dims in E. fold C in E.
  rewrite E. clear E. cbn [res_bind].
  rewrite Nat.add_0_l, Nat.sub_0_r, length_stream. unfold len.
  destruct (Nat.ltb_spec (8 * length binary_data) (Z.to_nat C)) as [Hroom|Hfull].
  - destruct (Z.ltb_spec (8 * Z.of_nat (length binary_data)) C); [|lia].
    rewrite firstn_all2 by (rewrite length_stream; lia).
    cbn [app].
    destruct (Z.ltb_spec (Z.of_nat (8 * length binary_data)) C); [|lia].
    rewrite andb_true_r. destruct fill_empty.
    + rewrite py_range2_nat. unfold dims at 1.
      rewrite sequential_fill_spec. reflexivity.
    + cbn [res_bind]. now rewrite app_nil_r.
  - destruct (Z.ltb_spec (8 * Z.of_nat (length binary_data)) C); [lia|].
    replace (Z.to_nat C - 8 * length binary_data)%nat with 0%nat by lia.
    cbn [app seq]. rewrite Z.add_0_l, Z.sub_0_r.
    destruct fill_empty; cbn [defaults map]; now rewrite app_nil_r.
Qed.

End SequentialLoops.

(** ** The randomized-position loops, characterised *)

Lemma getitem_nat {A} (l : list A) (n : nat) (d : A) :
  (n < length l)%nat -> getitem l (Z.of_nat n) = Ok (nth n l d).
Proof.
  intros Hn. unfold getitem, len.
  destruct (Z.ltb_spec (Z.of_nat n) 0); [lia|].
  destruct (Z.ltb_spec (Z.of_nat n) 0); [lia|].
  destruct (Z.leb_spec (Z.of_nat (length l)) (Z.of_nat n)); [lia|].
  cbn [orb]. rewrite Nat2Z.id.
  now rewrite (nth_error_nth' l d Hn).
Qed.

Section PositionLoops.

Context {R : PyRandom}.
Variable all_coords : list coord.

Lemma positions_bits_spec byte_idx total_bytes byte bit_idxs :
  forall result (n : nat),
    (n <= length all_coords)%nat ->
    positions_bits all_coords (len all_coords) byte_idx total_bytes byte
      bit_idxs (result, Z.of_nat n) =
    Ok (if (n + length bit_idxs <=? length all_coords)%nat
        then Continue
               (result ++ placed (nth_cell all_coords) n
                            (map (bit_of byte) bit_idxs),
                Z.of_nat (n + length bit_idxs))
        else Return
               (result ++ placed (nth_cell all_coords) n
                            (firstn (length all_coords - n)
                               (map (bit_of byte) bit_idxs)),
                byte_idx, total_bytes)).
Proof.
  induction bit_idxs as [|bit_idx rest IH]; intros result n Hn.
  - cbn [positions_bits length map placed].
    rewrite Nat.add_0_r, app_nil_r.
    destruct (Nat.leb_spec n (length all_coords)); [reflexivity | lia].
  - cbn [positions_bits length map]. unfold len at 1.
    destruct (Z.ltb_spec (Z.of_nat n) (Z.of_nat (length all_coords)))
      as [Hroom|Hfull].
    + rewrite (getitem_nat all_coords n (0, 0, 0)) by lia.
      cbn [res_bind]. fold (nth_cell all_coords n).
      destruct (nth_cell all_coords n) as [[x y] z] eqn:Ef.
      replace (Z.of_nat n + 1) with (Z.of_nat (S n)) by lia.
      rewrite IH by lia.
      replace (S n + length rest)%nat with (n + S (length rest))%nat by lia.
      replace (length all_coords - n)%nat
        with (S (length all_coords - S n)) by lia.
      cbn [firstn placed]. rewrite Ef, <- !app_assoc. reflexivity.
    + destruct (Nat.leb_spec (n + S (length rest)) (length all_coords));
        [lia|].
      replace (length all_coords - n)%nat with 0%nat by lia.
      cbn [firstn placed]. now rewrite app_nil_r.
Qed.

Lemma positions_bytes_spec total_bytes bytes :
  forall byte_idx result (n : nat),
    (n <= length all_coords)%nat ->
    positions_bytes all_coords (len all_coords) total_bytes bytes byte_idx
      (result, Z.of_nat n) =
    Ok (if (n + 8 * length bytes <=? length all_coords)%nat
        then Continue
               (result ++ placed (nth_cell all_coords) n (stream bytes),
                Z.of_nat (n + 8 * length bytes))
        else Return
               (result ++ placed (nth_cell all_coords) n
                            (firstn (length all_coords - n) (stream bytes)),
                byte_idx + (len all_coords - Z.of_nat n) / 8,
                total_bytes)).
Proof.
  induction bytes as [|b rest IH]; intros byte_idx result n Hn.
  - cbn [positions_bytes length stream flat_map placed].
    rewrite Nat.mul_0_r, Nat.add_0_r, app_nil_r.
    destruct (Nat.leb_spec n (length all_coords)); [reflexivity | lia].
  - cbn [positions_bytes].
    rewrite positions_bits_spec by assumption. cbn [res_bind].
    rewrite stream_cons. set (bits := map (bit_of (byte_val b)) (py_range 8)).
    assert (Hbits : length bits = 8%nat) by apply length_byte_bits.
    rewrite range_8. cbn [length]. unfold len.
    destruct (Nat.leb_spec (n + 8) (length all_coords)) as [Hroom|Hfull].
    + rewrite IH by lia.
      replace (n + 8 + 8 * length rest)%nat
        with (n + 8 * S (length rest))%nat by lia.
      rewrite firstn_app, Hbits.
      rewrite (firstn_all2 (n := length all_coords - n) bits) by lia.
      rewrite !placed_app, Hbits, <- ?app_assoc.
      replace (length all_coords - (n + 8))%nat
        with (length all_coords - n - 8)%nat by lia.
      replace (byte_idx + 1 +
               (len all_coords - Z.of_nat (n + 8)) / 8)
        with (byte_idx + (Z.of_nat (length all_coords) - Z.of_nat n) / 8).
      2:{ unfold len.
          replace (Z.of_nat (length all_coords) - Z.of_nat n)
            with (Z.of_nat (length all_coords) - Z.of_nat (n + 8) + 1 * 8)
            by lia.
          rewrite Z.div_add by lia. lia. }
      reflexivity.
    + destruct (Nat.leb_spec (n + 8 * S (length rest)) (length all_coords));
        [lia|].
      rewrite firstn_app, Hbits.
      replace (length all_coords - n - 8)%nat with 0%nat by lia.
      cbn [firstn]. rewrite app_nil_r.
      rewrite (Z.div_small (Z.of_nat (length all_coords) - Z.of_nat n))
        by lia.
      rewrite Z.add_0_r. reflexivity.
Qed.

Lemma positions_fill_spec default_bit (cells : list nat) :
  Forall (fun i => (i < length all_coords)%nat) cells ->
  forall result,
    positions_fill all_coords default_bit (map Z.of_nat cells) result =
    Ok (result ++ defaults (nth_cell all_coords) default_bit cells).
Proof.
  induction 1 as [|i cells Hi _ IH]; intros result; cbn [map positions_fill].
  - cbn. now rewrite app_nil_r.
  - rewrite (getitem_nat all_coords i (0, 0, 0)) by assumption.
    cbn [res_bind]. fold (nth_cell all_coords i).
    destruct (nth_cell all_coords i) as [[x y] z] eqn:Ef.
    rewrite IH. cbn [defaults map]. rewrite Ef, <- app_assoc. reflexivity.
Qed.

(** Everything [binary_to_3d_random_positions] does after the shuffle. *)
Lemma positions_after_shuffle binary_data fill_empty default_bit g :
  bindM (liftM (positions_bytes all_coords (len all_coords)
                  (len binary_data) binary_data 0 ([], 0)))
    (fun f =>
       match f with
       | Return r => retM r
       | Continue (result, bit_position) =>
           bindM
             (liftM (if fill_empty && (bit_position <? len all_coords)
                     then positions_fill all_coords default_bit
                            (py_range2 bit_position (len all_coords)) result
                     else Ok result))
             (fun result =>
                retM (result, len binary_data - 1, len binary_data))
       end) g =
  Ok (layout (nth_cell all_coords) (stream binary_data) (length all_coords)
        fill_empty default_bit,
      positions_last (len binary_data) (len all_coords),
      len binary_data, g).
Proof.
  unfold layout, positions_last, bindM, liftM, retM.
  pose proof (positions_bytes_spec (len binary_data) binary_data 0 []
                0%nat ltac:(lia)) as E.
  change (Z.of_nat 0) with 0 in E. rewrite E. clear E.
  rewrite Nat.add_0_l, Nat.sub_0_r, length_stream. unfold len.
  destruct (Nat.leb_spec (8 * length binary_data) (length all_coords))
    as [Hroom|Hfull].
  - destruct (Z.leb_spec (8 * Z.of_nat (length binary_data))
                (Z.of_nat (length all_coords))); [|lia].
    rewrite firstn_all2 by (rewrite length_stream; lia).
    cbn [app].
    destruct fill_empty; cbn [andb].
    + destruct (Z.ltb_spec (Z.of_nat (8 * length binary_data))
                  (Z.of_nat (length all_coords))).
      * rewrite py_range2_nat, Nat2Z.id.
        rewrite positions_fill_spec; [reflexivity|].
        apply Forall_forall. intros i Hi. apply in_seq in Hi. lia.
      * replace (length all_coords - 8 * length binary_data)%nat
          with 0%nat by lia.
        cbn [seq defaults map]. now rewrite app_nil_r.
    + now rewrite app_nil_r.
  - destruct (Z.leb_spec (8 * Z.of_nat (length binary_data))
                (Z.of_nat (length all_coords))); [lia|].
    replace (length all_coords - 8 * length binary_data)%nat
      with 0%nat by lia.
    cbn [app seq]. rewrite Z.add_0_l, Z.sub_0_r.
    destruct fill_empty; cbn [defaults map]; now rewrite app_nil_r.
Qed.

End PositionLoops.

(** ** The coordinate space *)

Lemma in_py_range n x : In x (py_range n) <-> 0 <= x < n.
Proof.
  unfold py_range, py_range2. rewrite in_map_iff. split.
  - intros (k & <- & Hk). apply in_seq in Hk. lia.
  - intros Hx. exists (Z.to_nat x). split; [lia|]. apply in_seq. lia.
Qed.

Lemma NoDup_py_range n : NoDup (py_range n).
Proof.
  unfold py_range, py_range2.
  apply NoDup_map_NoDup_ForallPairs; [|apply seq_NoDup].
  intros i j _ _ E. lia.
Qed.

Lemma length_py_range n : length (py_range n) = Z.to_nat n.
Proof.
  unfold py_range, py_range2. rewrite length_map, length_seq. f_equal. lia.
Qed.

Lemma NoDup_flat_map_keyed {A B} (f : A -> list B) (key : B -> A) l :
  (forall a b, In b (f a) -> key b = a) ->
  (forall a, In a l -> NoDup (f a)) ->
  NoDup l -> NoDup (flat_map f l).
Proof.
  intros Hkey Hf Hl. induction Hl as [|a l Ha Hl IH]; cbn; [constructor|].
  apply NoDup_app.
  - apply Hf. now left.
  - apply IH. intros a' Ha'. apply Hf. now right.
  - intros b Hb Hin. apply in_flat_map in Hin as (a' & Ha' & Hb').
    apply Hkey in Hb. apply Hkey in Hb'. congruence.
Qed.

Lemma in_product3 {A} (xs ys zs : list A) x y z :
  In (x, y, z) (product3 xs ys zs) <-> In x xs /\ In y ys /\ In z zs.
Proof.
  unfold product3. rewrite in_flat_map. split.
  - intros (x' & Hx' & H). apply in_flat_map in H as (y' & Hy' & H).
    apply in_map_iff in H as (z' & [= -> -> ->] & Hz'). auto.
  - intros (Hx' & Hy' & Hz'). exists x. split; [assumption|].
    apply in_flat_map. exists y. split; [assumption|].
    apply in_map_iff. now exists z.
Qed.

Lemma NoDup_product3 {A} (xs ys zs : list A) :
  NoDup xs -> NoDup ys -> NoDup zs -> NoDup (product3 xs ys zs).
Proof.
  intros Hxs Hys Hzs. unfold product3.
  apply (NoDup_flat_map_keyed _ (fun t => fst (fst t))); [| |assumption].
  - intros x t H. apply in_flat_map in H as (y & _ & H).
    apply in_map_iff in H as (z & <- & _). reflexivity.
  - intros x _.
    apply (NoDup_flat_map_keyed _ (fun t => snd (fst t))); [| |assumption].
    + intros y t H. apply in_map_iff in H as (z & <- & _). reflexivity.
    + intros y _. apply NoDup_map_NoDup_ForallPairs; [|assumption].
      intros z z' _ _ E. congruence.
Qed.

Lemma length_product3 {A} (xs ys zs : list A) :
  length (product3 xs ys zs) = (length xs * length ys * length zs)%nat.
Proof.
  unfold product3. induction xs as [|x xs IHx]; cbn; [reflexivity|].
  rewrite length_app, IHx.
  assert (E : length (flat_map (fun y => map (fun z => (x, y, z)) zs) ys)
              = (length ys * length zs)%nat).
  { clear IHx. induction ys as [|y ys IHy]; cbn; [reflexivity|].
    rewrite length_app, length_map, IHy. lia. }
  rewrite E. lia.
Qed.

Lemma in_all_coordinates dims c :
  In c (all_coordinates dims) <-> in_grid dims c.
Proof.
  destruct dims as [[max_x max_y] max_z], c as [[x y] z].
  unfold all_coordinates, in_grid. cbv beta iota.
  etransitivity; [apply in_product3|].
  rewrite !in_py_range. reflexivity.
Qed.

Lemma NoDup_all_coordinates dims : NoDup (all_coordinates dims).
Proof.
  destruct dims as [[max_x max_y] max_z]. unfold all_coordinates.
  apply NoDup_product3; apply NoDup_py_range.
Qed.

Lemma len_all_coordinates dims :
  positive dims -> len (all_coordinates dims) = capacity dims.
Proof.
  destruct dims as [[max_x max_y] max_z]. intros (Hx & Hy & Hz).
  unfold len, all_coordinates, capacity, coord. cbv beta iota.
  rewrite length_product3, !length_py_range. nia.
Qed.

Lemma all_coordinates_empty dims :
  ~ positive dims -> all_coordinates dims = [].
Proof.
  destruct dims as [[max_x max_y] max_z]. intros Hneg.
  apply length_zero_iff_nil. unfold all_coordinates, coord. cbv beta iota.
  rewrite length_product3, !length_py_range. cbn in Hneg. nia.
Qed.

(** ** Listings along an injective enumeration *)

Section Layout.

Variable f : nat -> coord.
Variable c : nat.
Hypothesis f_inj :
  forall i j, (i < c)%nat -> (j < c)%nat -> f i = f j -> i = j.

Lemma NoDup_cells start n :
  (start + n <= c)%nat -> NoDup (map f (seq start n)).
Proof.
  intros Hc. apply NoDup_map_NoDup_ForallPairs; [|apply seq_NoDup].
  intros i j Hi Hj. apply in_seq in Hi, Hj. apply f_inj; lia.
Qed.

Lemma coords_layout_sparse bits d :
  coords (layout f bits c false d) = map f (seq 0 (min c (length bits))).
Proof.
  unfold layout. rewrite app_nil_r, coords_placed, length_firstn.
  reflexivity.
Qed.

Lemma coords_layout_full bits d :
  coords (layout f bits c true d) = map f (seq 0 c).
Proof.
  unfold layout, coords. rewrite map_app.
  fold (coords (placed f 0 (firstn c bits))).
  fold (coords (defaults f d (seq (length bits) (c - length bits)))).
  rewrite coords_placed, coords_defaults, length_firstn, <- map_app.
  f_equal. destruct (Nat.le_gt_cases (length bits) c) as [Hle|Hgt].
  - rewrite Nat.min_r by assumption.
    pose proof (seq_app (length bits) (c - length bits) 0) as E.
    cbn [Nat.add] in E. rewrite <- E. f_equal. lia.
  - rewrite Nat.min_l by lia.
    replace (c - length bits)%nat with 0%nat by lia.
    apply app_nil_r.
Qed.

Lemma layout_fills bits d :
  fills d (layout f bits c false d) (layout f bits c true d).
Proof.
  split.
  - intros e He. unfold layout in *. rewrite app_nil_r in He.
    apply in_or_app. now left.
  - intros co b Hin. unfold layout at 1 in Hin.
    apply in_app_or in Hin as [Hin|Hin].
    + left. unfold layout. now rewrite app_nil_r.
    + right. unfold defaults in Hin.
      apply in_map_iff in Hin as (i & [= <- <-] & Hi). apply in_seq in Hi.
      split; [|reflexivity].
      rewrite coords_layout_sparse. intros Hco.
      apply in_map_iff in Hco as (j & Hj & Hjin). apply in_seq in Hjin.
      apply f_inj in Hj; lia.
Qed.

Lemma layout_bounded (dims : dimensions) bits d :
  Z.of_nat c = capacity dims ->
  bounded_assignment dims d (layout f bits c false d)
    (layout f bits c true d).
Proof.
  intros Hc. unfold bounded_assignment, len.
  rewrite coords_layout_sparse, coords_layout_full.
  repeat split.
  - apply NoDup_cells. lia.
  - rewrite <- (length_map entry_coord). fold (coords (layout f bits c false d)).
    rewrite coords_layout_sparse, length_map, length_seq. lia.
  - apply NoDup_cells. lia.
  - rewrite <- (length_map entry_coord). fold (coords (layout f bits c true d)).
    rewrite coords_layout_full, length_map, length_seq. lia.
  - apply layout_fills.
  - apply layout_fills.
Qed.

End Layout.

(** ** Seeding *)

Section Seeding.

Context {R : PyRandom}.

Lemma set_seed_ok seed g :
  seed_ok seed -> set_seed seed g = Ok (tt, reseed seed g).
Proof.
  destruct seed as [s|]; cbn; [|reflexivity].
  intros Hs. unfold np_random_seed.
  destruct (Z.ltb_spec s 0); [lia|].
  destruct (Z.leb_spec 4294967296 s); [lia|]. reflexivity.
Qed.

Lemma random_positions_spec binary_data dims fill_empty default_bit seed g :
  seed_ok seed ->
  binary_to_3d_random_positions binary_data dims fill_empty default_bit
    seed g =
  Ok (layout (nth_cell (fst (shuffled (all_coordinates dims) (reseed seed g))))
        (stream binary_data)
        (length (fst (shuffled (all_coordinates dims) (reseed seed g))))
        fill_empty default_bit,
      positions_last (len binary_data)
        (len (fst (shuffled (all_coordinates dims) (reseed seed g)))),
      len binary_data,
      snd (shuffled (all_coordinates dims) (reseed seed g))).
Proof.
  intros Hseed. unfold binary_to_3d_random_positions.
  unfold bindM at 1. rewrite (set_seed_ok _ _ Hseed).
  unfold bindM at 1. unfold shuffle.
  destruct (shuffled (all_coordinates dims) (reseed seed g))
    as [all_coords g'].
  cbn [fst snd]. apply positions_after_shuffle.
Qed.

End Seeding.

(** ** The dictionary of the randomized assignment *)

Lemma coord_eqb_eq a b : coord_eqb a b = true <-> a = b.
Proof.
  destruct a as [[x y] z], b as [[x' y'] z']. unfold coord_eqb.
  rewrite !andb_true_iff, !Z.eqb_eq. split.
  - intros [[-> ->] ->]. reflexivity.
  - intros [= -> -> ->]. auto.
Qed.

Lemma coord_eqb_refl a : coord_eqb a a = true.
Proof. now apply coord_eqb_eq. Qed.

Lemma coord_eqb_neq a b : a <> b -> coord_eqb a b = false.
Proof.
  intros Hne. destruct (coord_eqb a b) eqn:E; [|reflexivity].
  apply coord_eqb_eq in E. contradiction.
Qed.

Lemma in_dict_set d k v k' :
  In k' (map fst (dict_set d k v)) <-> k' = k \/ In k' (map fst d).
Proof.
  induction d as [|[k0 v0] d IH]; cbn.
  - intuition congruence.
  - destruct (coord_eqb k0 k) eqn:E; cbn.
    + apply coord_eqb_eq in E. subst k0. intuition congruence.
    + rewrite IH. intuition congruence.
Qed.

Lemma NoDup_dict_set d k v :
  NoDup (map fst d) -> NoDup (map fst (dict_set d k v)).
Proof.
  induction d as [|[k0 v0] d IH]; cbn; intros Hd.
  - constructor; [easy | constructor].
  - inversion Hd as [|? ? Hk0 Hd']; subst.
    destruct (coord_eqb k0 k) eqn:E; cbn.
    + now constructor.
    + constructor; [|auto].
      rewrite in_dict_set. intros [-> | H]; [|contradiction].
      now rewrite coord_eqb_refl in E.
Qed.

(** Last write wins: a store is what the next lookup finds. *)
Lemma dict_get_set d k v default : dict_get (dict_set d k v) k default = v.
Proof.
  induction d as [|[k0 v0] d IH]; cbn.
  - now rewrite coord_eqb_refl.
  - destruct (coord_eqb k0 k) eqn:E; cbn; rewrite E; auto.
Qed.

Lemma dict_get_cases d k default :
  In (k, dict_get d k default) d \/
  (~ In k (map fst d) /\ dict_get d k default = default).
Proof.
  induction d as [|[k0 v0] d IH]; cbn; [now right|].
  destruct (coord_eqb k0 k) eqn:E.
  - apply coord_eqb_eq in E. subst k0. now left; left.
  - destruct IH as [H | [Hn Hd]]; [now left; right|].
    right. split; [|assumption].
    intros [-> | H]; [|contradiction].
    now rewrite coord_eqb_refl in E.
Qed.

Lemma dict_get_in d k v default :
  NoDup (map fst d) -> In (k, v) d -> dict_get d k default = v.
Proof.
  induction d as [|[k0 v0] d IH]; cbn; [easy|].
  intros Hd Hin. inversion Hd as [|? ? Hk0 Hd']; subst.
  destruct Hin as [[= -> ->] | Hin].
  - now rewrite coord_eqb_refl.
  - rewrite coord_eqb_neq; [auto|].
    intros ->. apply Hk0. apply in_map_iff. now exists (k, v).
Qed.

Lemma assignment_listing_bounded dims d default_bit :
  positive dims -> dict_inv dims d ->
  bounded_assignment dims default_bit
    (assignment_listing dims d false default_bit)
    (assignment_listing dims d true default_bit).
Proof.
  intros Hpos [Hnd Hgrid]. unfold bounded_assignment, assignment_listing.
  assert (Hco : coords (map (fun c => (c, dict_get d c default_bit))
                          (all_coordinates dims)) = all_coordinates dims).
  { unfold coords. rewrite map_map. apply map_id. }
  rewrite Hco. repeat split.
  - exact Hnd.
  - rewrite <- (len_all_coordinates dims Hpos). unfold len.
    assert (Hl : (length (map fst d) <= length (all_coordinates dims))%nat).
    { apply NoDup_incl_length; [exact Hnd|].
      intros k Hk. apply in_all_coordinates. auto. }
    rewrite length_map in Hl. apply inj_le, Hl.
  - apply NoDup_all_coordinates.
  - rewrite <- (len_all_coordinates dims Hpos). unfold len.
    now rewrite length_map.
  - intros [k v] Hin. apply in_map_iff. exists k. split.
    + f_equal. now apply dict_get_in.
    + apply in_all_coordinates, Hgrid. apply in_map_iff. now exists (k, v).
  - intros c b Hin. apply in_map_iff in Hin as (c' & [= -> <-] & _).
    apply dict_get_cases.
Qed.

Section AssignmentLoops.

Context {R : PyRandom}.
Variables max_x max_y max_z : Z.
Hypothesis Hx : 0 < max_x.
Hypothesis Hy : 0 < max_y.
Hypothesis Hz : 0 < max_z.

Lemma randint_ok b g :
  0 <= b ->
  exists v g', randint 0 b g = Ok (v, g') /\ 0 <= v <= b.
Proof.
  intros Hb. unfold randint. destruct (Z.ltb_spec b 0); [lia|].
  pose proof (draw_range 0 b g Hb) as Hr.
  destruct (draw 0 b g) as [v g']. now exists v, g'.
Qed.

Lemma assignment_bits_ok total_positions byte bit_idxs :
  forall d n g,
    dict_inv (max_x, max_y, max_z) d ->
    exists d' n' g',
      assignment_bits (max_x, max_y, max_z) total_positions byte bit_idxs
        (d, n) g = Ok (d', n', g') /\
      dict_inv (max_x, max_y, max_z) d'.
Proof.
  induction bit_idxs as [|bit_idx rest IH]; intros d n g Hd.
  - now exists d, n, g.
  - cbn [assignment_bits]. unfold bindM.
    destruct (randint_ok (max_x - 1) g ltac:(lia)) as (x & g1 & -> & Hxr).
    destruct (randint_ok (max_y - 1) g1 ltac:(lia)) as (y & g2 & -> & Hyr).
    destruct (randint_ok (max_z - 1) g2 ltac:(lia)) as (z & g3 & -> & Hzr).
    assert (Hd' : dict_inv (max_x, max_y, max_z)
                    (dict_set d (x, y, z) (bit_of byte bit_idx))).
    { destruct Hd as [Hnd Hgrid]. split; [now apply NoDup_dict_set|].
      intros k Hk. apply in_dict_set in Hk as [-> | Hk]; [|auto].
      cbn. lia. }
    destruct (total_positions <=? n + 1).
    + now eexists _, _, _.
    + now apply IH.
Qed.

Lemma assignment_bytes_ok total_positions bytes :
  forall d n g,
    dict_inv (max_x, max_y, max_z) d ->
    exists d' n' g',
      assignment_bytes (max_x, max_y, max_z) total_positions bytes (d, n) g
      = Ok (d', n', g') /\
      dict_inv (max_x, max_y, max_z) d'.
Proof.
  induction bytes as [|b rest IH]; intros d n g Hd.
  - now exists d, n, g.
  - cbn [assignment_bytes]. unfold bindM.
    destruct (assignment_bits_ok total_positions (byte_val b) (py_range 8)
                d n g Hd) as (d1 & n1 & g1 & -> & Hd1).
    cbn [snd]. destruct (total_positions <=? n1).
    + now exists d1, n1, g1.
    + now apply IH.
Qed.

Lemma random_assignment_spec binary_data seed g :
  seed_ok seed ->
  exists d g',
    dict_inv (max_x, max_y, max_z) d /\
    forall fill_empty default_bit,
      binary_to_3d_random_assignment binary_data (max_x, max_y, max_z)
        fill_empty default_bit seed g =
      Ok (assignment_listing (max_x, max_y, max_z) d fill_empty default_bit,
          len binary_data - 1, len binary_data, g').
Proof.
  intros Hseed.
  destruct (assignment_bytes_ok (capacity (max_x, max_y, max_z)) binary_data
              [] 0 (reseed seed g))
    as (d & n & g' & E & Hd).
  { split; [constructor | intros k []]. }
  exists d, g'. split; [exact Hd|].
  intros fill_empty default_bit.
  unfold binary_to_3d_random_assignment.
  unfold bindM at 1. rewrite (set_seed_ok _ _ Hseed).
  unfold bindM. unfold dict in *. rewrite E.
  unfold retM, assignment_listing, dict_items.
  destruct fill_empty;
    match goal with
    | |- Ok (?a, _, _, _) = Ok (?b, _, _, _) =>
        assert (Hab : a = b); [|rewrite Hab; reflexivity]
    end.
  - apply map_ext. now intros [[x y] z].
  - erewrite map_ext; [apply map_id|]. now intros [[[x y] z] bit].
Qed.

End AssignmentLoops.

(** ** The two enumerations are injective *)

Lemma row_major_inj dims i j :
  positive dims -> row_major dims i = row_major dims j -> i = j.
Proof.
  destruct dims as [[max_x max_y] max_z]. intros (Hx & Hy & Hz) E.
  apply (f_equal (encode (max_x, max_y, max_z))) in E.
  unfold row_major in E. rewrite !encode_decode in E by assumption. lia.
Qed.

Lemma nth_cell_inj all_coords i j :
  NoDup all_coords ->
  (i < length all_coords)%nat -> (j < length all_coords)%nat ->
  nth_cell all_coords i = nth_cell all_coords j -> i = j.
Proof.
  intros Hnd Hi Hj E.
  apply (proj1 (NoDup_nth all_coords (0, 0, 0)) Hnd i j Hi Hj E).
Qed.

Lemma distinct_positions (r : list entry) i j ci bi cj bj :
  NoDup (coords r) ->
  nth_error r i = Some (ci, bi) -> nth_error r j = Some (cj, bj) ->
  i <> j -> ci <> cj.
Proof.
  intros Hnd Hi Hj Hij E. subst cj. apply Hij.
  apply (proj1 (NoDup_nth_error (coords r)) Hnd).
  - unfold coords. rewrite length_map. apply nth_error_Some. congruence.
  - unfold coords. rewrite !nth_error_map, Hi, Hj. reflexivity.
Qed.

Section Shuffled.

Context {R : PyRandom}.

Lemma shuffled_NoDup dims g :
  NoDup (fst (shuffled (all_coordinates dims) g)).
Proof.
  eapply Permutation_NoDup; [apply shuffled_perm|].
  apply NoDup_all_coordinates.
Qed.

Lemma shuffled_len dims g :
  positive dims ->
  len (fst (shuffled (all_coordinates dims) g)) = capacity dims.
Proof.
  intros Hpos. rewrite <- (len_all_coordinates dims Hpos). unfold len.
  f_equal. symmetry. apply Permutation_length, shuffled_perm.
Qed.

Lemma shuffled_in dims g c :
  In c (fst (shuffled (all_coordinates dims) g)) <-> in_grid dims c.
Proof.
  rewrite <- in_all_coordinates. split; apply Permutation_in.
  - symmetry. apply shuffled_perm.
  - apply shuffled_perm.
Qed.

End Shuffled.

(** ** Default-filled grids and the reported byte index *)

Lemma layout_empty f c fill_empty default_bit :
  layout f [] c fill_empty default_bit =
  if fill_empty then defaults f default_bit (seq 0 c) else [].
Proof.
  unfold layout. rewrite firstn_nil. cbn [placed app length].
  now rewrite Nat.sub_0_r.
Qed.

Lemma default_grid_defaults dims default_bit f c :
  Z.of_nat c = capacity dims ->
  (forall i j, (i < c)%nat -> (j < c)%nat -> f i = f j -> i = j) ->
  (forall i, (i < c)%nat -> in_grid dims (f i)) ->
  (forall co, in_grid dims co -> exists i, (i < c)%nat /\ f i = co) ->
  default_grid dims default_bit (defaults f default_bit (seq 0 c)).
Proof.
  intros Hc Hinj Hgrid Hcover. unfold default_grid. repeat split.
  - unfold len, defaults. rewrite length_map, length_seq. exact Hc.
  - rewrite coords_defaults. apply (NoDup_cells f c Hinj). lia.
  - unfold defaults in H. apply in_map_iff in H as (i & [= <- _] & Hi).
    apply in_seq in Hi. apply Hgrid. lia.
  - unfold defaults in H. now apply in_map_iff in H as (i & [= _ <-] & Hi).
  - intros co Hco. destruct (Hcover co Hco) as (i & Hi & <-).
    unfold defaults. apply in_map_iff. exists i. split; [reflexivity|].
    apply in_seq. lia.
Qed.

Lemma row_major_cover dims co :
  positive dims -> in_grid dims co ->
  exists i, (i < Z.to_nat (capacity dims))%nat /\ row_major dims i = co.
Proof.
  destruct dims as [[max_x max_y] max_z]. intros (Hx & Hy & Hz) Hco.
  destruct (decode_encode max_x max_y max_z Hx Hy co Hco) as [Hr E].
  exists (Z.to_nat (encode (max_x, max_y, max_z) co)). split; [lia|].
  unfold row_major. rewrite Z2Nat.id by lia. exact E.
Qed.

Lemma row_major_in_grid dims i :
  positive dims -> (i < Z.to_nat (capacity dims))%nat ->
  in_grid dims (row_major dims i).
Proof.
  destruct dims as [[max_x max_y] max_z]. intros (Hx & Hy & Hz) Hi.
  apply decode_in_grid; try assumption. lia.
Qed.

(** When the last input byte is reached, both truncating strategies report
    it as the last byte index. *)
Lemma sequential_last_reached total_bytes total_positions :
  0 < total_positions -> 8 * (total_bytes - 1) < total_positions ->
  sequential_last total_bytes total_positions = total_bytes - 1.
Proof.
  intros HC Hlast. unfold sequential_last.
  destruct (Z.ltb_spec (8 * total_bytes) total_positions); [reflexivity|].
  symmetry. apply (Z.div_unique _ _ _ (total_positions - 1
                                       - 8 * (total_bytes - 1))); lia.
Qed.

Lemma positions_last_reached total_bytes total_positions :
  8 * (total_bytes - 1) < total_positions ->
  positions_last total_bytes total_positions = total_bytes - 1.
Proof.
  intros Hlast. unfold positions_last.
  destruct (Z.leb_spec (8 * total_bytes) total_positions); [reflexivity|].
  symmetry. apply (Z.div_unique _ _ _ (total_positions
                                       - 8 * (total_bytes - 1))); lia.
Qed.

(** ** Stepping through generator code *)

Section Stepping.

Context {R : PyRandom}.

Lemma bindM_ok {A B} (m : M A) (k : A -> M B) g a g' :
  m g = Ok (a, g') -> bindM m k g = k a g'.
Proof. intros E. unfold bindM. now rewrite E. Qed.

Lemma bindM_raise {A B} (m : M A) (k : A -> M B) g e :
  m g = Raise e -> bindM m k g = Raise e.
Proof. intros E. unfold bindM. now rewrite E. Qed.

(** On a one-point range the draw is forced. *)
Lemma randint_point a g : randint a a g = Ok (a, snd (draw a a g)).
Proof.
  unfold randint. rewrite Z.ltb_irrefl.
  pose proof (draw_range a a g (Z.le_refl a)) as Hr.
  destruct (draw a a g) as [v g']. cbn [fst snd] in *.
  do 2 f_equal. lia.
Qed.

Lemma randint_empty a b g : b < a -> randint a b g = Raise ValueError.
Proof.
  intros Hab. unfold randint. destruct (Z.ltb_spec b a); [reflexivity|lia].
Qed.

Lemma set_seed_cases seed g :
  set_seed seed g = Ok (tt, reseed seed g) \/
  set_seed seed g = Raise ValueError.
Proof.
  destruct seed as [s|]; cbn; [|now left].
  unfold np_random_seed.
  destruct ((s <? 0) || (4294967296 <=? s)); [now right | now left].
Qed.

(** One draw on the grid (1,1,1) fills it and ends the inner loop. *)
Lemma single_cell_bits byte bit_idx rest d g :
  exists g',
    assignment_bits (1, 1, 1) 1 byte (bit_idx :: rest) (d, 0) g =
    Ok (dict_set d (0, 0, 0) (bit_of byte bit_idx), 1, g').
Proof.
  cbn [assignment_bits]. change (1 - 1) with 0. unfold bindM.
  rewrite randint_point. rewrite randint_point. rewrite randint_point.
  change (1 <=? 0 + 1) with true. cbv iota. unfold retM.
  eexists. reflexivity.
Qed.

(** The first draw on an axis without cells raises. *)
Lemma assignment_bits_nonpositive max_x max_y max_z total_positions byte
    bit_idx rest st g :
  max_x <= 0 \/ max_y <= 0 \/ max_z <= 0 ->
  assignment_bits (max_x, max_y, max_z) total_positions byte
    (bit_idx :: rest) st g = Raise ValueError.
Proof.
  intros Hneg. destruct st as [d n]. cbn [assignment_bits].
  destruct (Z.le_gt_cases max_x 0) as [Hx|Hx].
  { apply bindM_raise, randint_empty. lia. }
  unfold bindM at 1. unfold randint at 1.
  destruct (Z.ltb_spec (max_x - 1) 0); [lia|].
  destruct (draw 0 (max_x - 1) g) as [x g1].
  destruct (Z.le_gt_cases max_y 0) as [Hy|Hy].
  { apply bindM_raise, randint_empty. lia. }
  unfold bindM at 1. unfold randint at 1.
  destruct (Z.ltb_spec (max_y - 1) 0); [lia|].
  destruct (draw 0 (max_y - 1) g1) as [y g2].
  apply bindM_raise, randint_empty. lia.
Qed.

End Stepping.

(** ** The caller's report *)

Section Caller.

Context {R : PyRandom}.

(** After the strategy has returned [E], the caller sorts, decides on the
    warning and prints the summary. *)
Ltac caller_report E :=
  unfold binary_to_3d; cbn [String.eqb Ascii.eqb Bool.eqb];
  first [rewrite E | rewrite (bindM_ok _ _ _ _ _ E)];
  unfold bindM, liftM, retM;
  cbn [mode_in existsb String.eqb Ascii.eqb Bool.eqb orb];
  match goal with
  | |- context [?c =? 0] => destruct (Z.eqb_spec c 0); [contradiction|]
  end;
  reflexivity.

Lemma caller_sequential binary_data dims fill_empty default_bit seed g
    r last total :
  capacity dims <> 0 ->
  binary_to_3d_sequential binary_data dims fill_empty default_bit =
    Ok (r, last, total) ->
  binary_to_3d binary_data dims "sequential" fill_empty default_bit seed g =
  Ok ({| written := r;
         warning := if (last <? total - 1) && negb fill_empty
                    then Some (last + 1, total) else None |}, g).
Proof. intros HC E. caller_report E. Qed.

Lemma caller_random_positions binary_data dims fill_empty default_bit seed g
    r last total g' :
  capacity dims <> 0 ->
  binary_to_3d_random_positions binary_data dims fill_empty default_bit
    seed g = Ok (r, last, total, g') ->
  binary_to_3d binary_data dims "random_positions" fill_empty default_bit
    seed g =
  Ok ({| written := sort_zyx r;
         warning := if (last <? total - 1) && negb fill_empty
                    then Some (last + 1, total) else None |}, g').
Proof. intros HC E. caller_report E. Qed.

Lemma caller_random_assignment binary_data dims fill_empty default_bit seed g
    r last total g' :
  capacity dims <> 0 ->
  binary_to_3d_random_assignment binary_data dims fill_empty default_bit
    seed g = Ok (r, last, total, g') ->
  binary_to_3d binary_data dims "random_assignment" fill_empty default_bit
    seed g =
  Ok ({| written := sort_zyx r;
         warning := if (last <? total - 1) && negb fill_empty
                    then Some (last + 1, total) else None |}, g').
Proof. intros HC E. caller_report E. Qed.

End Caller.

Lemma sequential_last_short total_bytes total_positions :
  0 < total_positions ->
  (sequential_last total_bytes total_positions <? total_bytes - 1) =
  (total_positions <=? 8 * (total_bytes - 1)).
Proof.
  intros HC. unfold sequential_last.
  pose proof (Z.div_mod (total_positions - 1) 8 ltac:(lia)).
  pose proof (Z.mod_pos_bound (total_positions - 1) 8 ltac:(lia)).
  destruct (Z.ltb_spec (8 * total_bytes) total_positions);
    destruct (Z.leb_spec total_positions (8 * (total_bytes - 1)));
    destruct (Z.ltb_spec (total_bytes - 1) (total_bytes - 1));
    try lia;
    destruct (Z.ltb_spec ((total_positions - 1) / 8) (total_bytes - 1));
    try reflexivity; lia.
Qed.

Lemma positions_last_short total_bytes total_positions :
  total_positions < 8 * (total_bytes - 1) ->
  (positions_last total_bytes total_positions <? total_bytes - 1) = true.
Proof.
  intros HC. unfold positions_last.
  pose proof (Z.div_mod total_positions 8 ltac:(lia)).
  pose proof (Z.mod_pos_bound total_positions 8 ltac:(lia)).
  destruct (Z.leb_spec (8 * total_bytes) total_positions); [lia|].
  apply Z.ltb_lt. lia.
Qed.

(** * The claims *)

(** C5.  Round trip of the row-major decoding: for positive dimensions and
    every linear index [0 <= i < Capacity], the decoding performed by the
    mapper succeeds, yields [x = i % max_x], [y = (i // max_x) % max_y],
    [z = i // (max_x * max_y)], and re-encoding these as
    [x + y*max_x + z*max_x*max_y] gives [i] back. *)
Theorem decode_encode_roundtrip max_x max_y max_z i :
  0 < max_x -> 0 < max_y -> 0 < max_z ->
  0 <= i < capacity (max_x, max_y, max_z) ->
  exists x y z,
    position_to_xyz (max_x, max_y, max_z) i = Ok (x, y, z) /\
    x = i mod max_x /\ y = (i / max_x) mod max_y /\
    z = i / (max_x * max_y) /\
    x + y * max_x + z * max_x * max_y = i.
Proof.
  intros Hx Hy Hz Hi.
  exists (i mod max_x), ((i / max_x) mod max_y), (i / (max_x * max_y)).
  split; [now rewrite position_to_xyz_decode|].
  repeat split.
  exact (encode_decode max_x max_y max_z Hx Hy i).
Qed.

Lemma decode_encode_roundtrip_witness :
  0 < 2 /\ 0 < 3 /\ 0 < 4 /\ 0 <= 17 < capacity (2, 3, 4) /\
  exists x y z,
    position_to_xyz (2, 3, 4) 17 = Ok (x, y, z) /\
    x = 17 mod 2 /\ y = (17 / 2) mod 3 /\ z = 17 / (2 * 3) /\
    x + y * 2 + z * 2 * 3 = 17.
Proof.
  repeat (split; [cbn; lia|]).
  apply (decode_encode_roundtrip 2 3 4 17); cbn; lia.
Defined.

(** C6.  Sequential placement of the single byte [0xB0] on a (2,2,2) grid,
    fill-empty on, default bit 0: the listing has exactly 8 entries, in
    row-major order of the cells, carrying the bits 1,0,1,1,0,0,0,0; so
    index 0 is cell (0,0,0) with bit 1, index 1 is (1,0,0) with bit 0 and
    index 4 is (0,0,1) with bit 0. *)
Theorem sequential_B0_example :
  binary_to_3d_sequential [xb0] (2, 2, 2) true 0 =
  Ok ([(0,0,0,1); (1,0,0,0); (0,1,0,1); (1,1,0,1);
       (0,0,1,0); (1,0,1,0); (0,1,1,0); (1,1,1,0)], 0, 1) /\
  [(0,0,0,1); (1,0,0,0); (0,1,0,1); (1,1,0,1);
   (0,0,1,0); (1,0,1,0); (0,1,1,0); (1,1,1,0)] =
  map (fun i => (row_major (2, 2, 2) i, nth i [1; 0; 1; 1; 0; 0; 0; 0] 0))
    (seq 0 8).
Proof.
  split; vm_compute; reflexivity.
Qed.

Section Claims.

Context {R : PyRandom}.

(** C7.  Randomized-position placement under a fixed integer seed is
    deterministic: whatever state the process-wide generator was in before
    the two runs, identical bytes, dimensions, fill policy and seed give
    identical results (listing, diagnostics and generator state after the
    run), also through the caller. *)
Theorem random_positions_seeded_deterministic binary_data dims fill_empty
    default_bit (s : Z) (g g' : rng) :
  binary_to_3d_random_positions binary_data dims fill_empty default_bit
    (Some s) g =
  binary_to_3d_random_positions binary_data dims fill_empty default_bit
    (Some s) g' /\
  binary_to_3d binary_data dims "random_positions" fill_empty default_bit
    (Some s) g =
  binary_to_3d binary_data dims "random_positions" fill_empty default_bit
    (Some s) g'.
Proof.
  assert (E : binary_to_3d_random_positions binary_data dims fill_empty
                default_bit (Some s) g =
              binary_to_3d_random_positions binary_data dims fill_empty
                default_bit (Some s) g').
  { unfold binary_to_3d_random_positions, bindM, set_seed. reflexivity. }
  split; [exact E|].
  unfold binary_to_3d. cbn [String.eqb Ascii.eqb Bool.eqb].
  unfold bindM at 1 3. rewrite E. reflexivity.
Qed.

(** C4.  Randomized-position placement never puts two distinct input-bit
    positions on the same coordinate: for positive dimensions the call
    returns, entry [i] of the listing carries bit [i] of the input for every
    bit position below Capacity, on a cell of the grid, and entries at
    distinct positions of the listing have distinct coordinates. *)
Theorem random_positions_injective binary_data dims fill_empty default_bit
    seed (g : rng) :
  positive dims -> seed_ok seed ->
  exists r last g',
    binary_to_3d_random_positions binary_data dims fill_empty default_bit
      seed g = Ok (r, last, len binary_data, g') /\
    (forall i b,
        nth_error (stream binary_data) i = Some b ->
        Z.of_nat i < capacity dims ->
        exists c, nth_error r i = Some (c, b) /\ in_grid dims c) /\
    (forall i j ci bi cj bj,
        nth_error r i = Some (ci, bi) -> nth_error r j = Some (cj, bj) ->
        i <> j -> ci <> cj).
Proof.
  intros Hpos Hseed.
  rewrite (random_positions_spec _ _ _ _ _ _ Hseed).
  pose proof (shuffled_NoDup dims (reseed seed g)) as Hnd.
  pose proof (shuffled_len dims (reseed seed g) Hpos) as Hlen.
  pose proof (shuffled_in dims (reseed seed g)) as Hin.
  set (all_coords := fst (shuffled (all_coordinates dims) (reseed seed g)))
    in *.
  eexists _, _, _. split; [reflexivity|]. split.
  - intros i b Hb Hi. unfold len in Hlen.
    assert (Hi' : (i < length all_coords)%nat) by lia.
    exists (nth_cell all_coords i). split.
    + unfold layout.
      assert (Hf : nth_error (firstn (length all_coords)
                                (stream binary_data)) i = Some b).
      { rewrite nth_error_firstn.
        destruct (Nat.ltb_spec i (length all_coords)); [assumption | lia]. }
      rewrite nth_error_app1.
      * now rewrite (nth_error_placed _ 0 _ _ _ Hf).
      * rewrite length_placed. apply nth_error_Some. congruence.
    + apply Hin. now apply nth_In.
  - intros i j ci bi cj bj. apply distinct_positions.
    destruct fill_empty.
    + rewrite coords_layout_full.
      apply (NoDup_cells _ (length all_coords)); [|lia].
      intros a b Ha Hb. now apply nth_cell_inj.
    + rewrite coords_layout_sparse.
      apply (NoDup_cells _ (length all_coords)); [|lia].
      intros a b Ha Hb. now apply nth_cell_inj.
Qed.

(** C3.  The size invariant, for each of the three strategies, every input
    and all positive dimensions: the call returns; without fill-empty the
    listing has pairwise distinct coordinates and at most Capacity entries;
    with fill-empty it has pairwise distinct coordinates and exactly Capacity
    entries, keeps every entry of the listing without fill, and every cell
    that got no input bit carries the default bit. *)
Theorem assignment_size_invariant binary_data dims default_bit seed
    (g : rng) :
  positive dims -> seed_ok seed ->
  (exists sparse full last last',
      binary_to_3d_sequential binary_data dims false default_bit =
        Ok (sparse, last, len binary_data) /\
      binary_to_3d_sequential binary_data dims true default_bit =
        Ok (full, last', len binary_data) /\
      bounded_assignment dims default_bit sparse full) /\
  (exists sparse full last last' g1 g2,
      binary_to_3d_random_positions binary_data dims false default_bit
        seed g = Ok (sparse, last, len binary_data, g1) /\
      binary_to_3d_random_positions binary_data dims true default_bit
        seed g = Ok (full, last', len binary_data, g2) /\
      bounded_assignment dims default_bit sparse full) /\
  (exists sparse full last last' g1 g2,
      binary_to_3d_random_assignment binary_data dims false default_bit
        seed g = Ok (sparse, last, len binary_data, g1) /\
      binary_to_3d_random_assignment binary_data dims true default_bit
        seed g = Ok (full, last', len binary_data, g2) /\
      bounded_assignment dims default_bit sparse full).
Proof.
  intros Hpos Hseed. split; [|split].
  - destruct dims as [[max_x max_y] max_z].
    pose proof Hpos as (Hx & Hy & Hz).
    rewrite !(sequential_spec max_x max_y max_z Hx Hy Hz).
    eexists _, _, _, _. split; [reflexivity|]. split; [reflexivity|].
    apply layout_bounded.
    + intros i j _ _. now apply row_major_inj.
    + pose proof (capacity_pos max_x max_y max_z Hx Hy Hz). lia.
  - rewrite !(random_positions_spec _ _ _ _ _ _ Hseed).
    eexists _, _, _, _, _, _. split; [reflexivity|]. split; [reflexivity|].
    apply layout_bounded.
    + intros i j Hi Hj. apply nth_cell_inj; [apply shuffled_NoDup | | ];
        assumption.
    + exact (shuffled_len dims (reseed seed g) Hpos).
  - destruct dims as [[max_x max_y] max_z].
    pose proof Hpos as (Hx & Hy & Hz).
    destruct (random_assignment_spec max_x max_y max_z Hx Hy Hz binary_data
                seed g Hseed) as (d & g' & Hd & E).
    rewrite !E.
    eexists _, _, _, _, _, _. split; [reflexivity|]. split; [reflexivity|].
    now apply assignment_listing_bounded.
Qed.

(** C9.  The empty input is valid for every strategy and all positive
    dimensions: no error is raised; with fill-empty off the listing is
    empty; with fill-empty on it has exactly Capacity entries with pairwise
    distinct coordinates, covers every cell of the grid and carries the
    default bit everywhere. *)
Theorem empty_input_valid dims default_bit seed (g : rng) :
  positive dims -> seed_ok seed ->
  binary_to_3d_sequential [] dims false default_bit = Ok ([], -1, 0) /\
  (exists g', binary_to_3d_random_positions [] dims false default_bit seed g
              = Ok ([], -1, 0, g')) /\
  (exists g', binary_to_3d_random_assignment [] dims false default_bit seed g
              = Ok ([], -1, 0, g')) /\
  (exists r, binary_to_3d_sequential [] dims true default_bit
             = Ok (r, -1, 0) /\
             default_grid dims default_bit r) /\
  (exists r g', binary_to_3d_random_positions [] dims true default_bit seed g
                = Ok (r, -1, 0, g') /\
                default_grid dims default_bit r) /\
  (exists r g', binary_to_3d_random_assignment [] dims true default_bit seed g
                = Ok (r, -1, 0, g') /\
                default_grid dims default_bit r).
Proof.
  intros Hpos Hseed.
  assert (HC : 0 < capacity dims).
  { destruct dims as [[max_x max_y] max_z]. destruct Hpos as (? & ? & ?).
    now apply capacity_pos. }
  assert (Hseq : forall fill_empty,
             binary_to_3d_sequential [] dims fill_empty default_bit =
             Ok (if fill_empty
                 then defaults (row_major dims) default_bit
                        (seq 0 (Z.to_nat (capacity dims)))
                 else [], -1, 0)).
  { intros fill_empty. destruct dims as [[max_x max_y] max_z].
    pose proof Hpos as (Hx & Hy & Hz).
    rewrite (sequential_spec max_x max_y max_z Hx Hy Hz).
    change (stream []) with (@nil Z). rewrite layout_empty.
    change (len (@nil byte)) with 0.
    rewrite sequential_last_reached by lia. reflexivity. }
  assert (Hpos' : forall fill_empty,
             binary_to_3d_random_positions [] dims fill_empty default_bit
               seed g =
             Ok (if fill_empty
                 then defaults
                        (nth_cell (fst (shuffled (all_coordinates dims)
                                          (reseed seed g))))
                        default_bit
                        (seq 0 (length (fst (shuffled (all_coordinates dims)
                                               (reseed seed g)))))
                 else [], -1, 0,
                 snd (shuffled (all_coordinates dims) (reseed seed g)))).
  { intros fill_empty. rewrite (random_positions_spec _ _ _ _ _ _ Hseed).
    change (stream []) with (@nil Z). rewrite layout_empty.
    change (len (@nil byte)) with 0.
    rewrite positions_last_reached; [reflexivity|].
    rewrite shuffled_len by assumption. lia. }
  assert (Hasg : forall fill_empty,
             binary_to_3d_random_assignment [] dims fill_empty default_bit
               seed g =
             Ok (assignment_listing dims [] fill_empty default_bit, -1, 0,
                 reseed seed g)).
  { intros fill_empty. destruct dims as [[max_x max_y] max_z].
    pose proof Hpos as (Hx & Hy & Hz).
    destruct (random_assignment_spec max_x max_y max_z Hx Hy Hz [] seed g
                Hseed) as (d & g' & _ & E).
    rewrite E. specialize (E false 0).
    unfold binary_to_3d_random_assignment in E. unfold bindM at 1 in E.
    rewrite (set_seed_ok _ _ Hseed) in E.
    cbn in E. injection E as <- <-. reflexivity. }
  split; [apply (Hseq false)|].
  split; [eexists; apply (Hpos' false)|].
  split; [eexists; apply (Hasg false)|].
  split; [|split].
  - eexists. split; [apply (Hseq true)|].
    apply default_grid_defaults.
    + lia.
    + intros i j _ _. now apply row_major_inj.
    + intros i Hi. now apply row_major_in_grid.
    + intros co Hco. now apply row_major_cover.
  - eexists _, _. split; [apply (Hpos' true)|].
    pose proof (shuffled_NoDup dims (reseed seed g)) as Hnd.
    pose proof (shuffled_in dims (reseed seed g)) as Hin.
    apply default_grid_defaults.
    + exact (shuffled_len dims (reseed seed g) Hpos).
    + intros i j Hi Hj. now apply nth_cell_inj.
    + intros i Hi. apply Hin. now apply nth_In.
    + intros co Hco. apply Hin in Hco.
      destruct (In_nth _ _ (0, 0, 0) Hco) as (i & Hi & E). now exists i.
  - eexists _, _. split; [apply (Hasg true)|].
    unfold assignment_listing, default_grid. cbn [dict_get]. repeat split.
    + rewrite <- (len_all_coordinates dims Hpos). unfold len.
      now rewrite length_map.
    + unfold coords. rewrite map_map. cbn [entry_coord fst].
      rewrite map_id. apply NoDup_all_coordinates.
    + apply in_map_iff in H as (c' & [= -> _] & Hc).
      now apply in_all_coordinates.
    + now apply in_map_iff in H as (c' & [= _ <-] & Hc).
    + intros c Hc. apply in_map_iff. exists c. split; [reflexivity|].
      now apply in_all_coordinates.
Qed.

(** C10.  Whenever the whole input is consumed ([8 * len <= Capacity], the
    empty input included) each strategy returns the diagnostic pair
    [(len - 1, len)]; for the empty input this is [(-1, 0)], and [-1] is no
    index of the (empty) input. *)
Theorem consumed_input_diagnostics binary_data dims fill_empty default_bit
    seed (g : rng) :
  positive dims -> seed_ok seed ->
  8 * len binary_data <= capacity dims ->
  (exists r, binary_to_3d_sequential binary_data dims fill_empty default_bit
             = Ok (r, len binary_data - 1, len binary_data)) /\
  (exists r g', binary_to_3d_random_positions binary_data dims fill_empty
                  default_bit seed g
                = Ok (r, len binary_data - 1, len binary_data, g')) /\
  (exists r g', binary_to_3d_random_assignment binary_data dims fill_empty
                  default_bit seed g
                = Ok (r, len binary_data - 1, len binary_data, g')) /\
  (binary_data = [] ->
   len binary_data - 1 = -1 /\ len binary_data = 0 /\
   getitem binary_data (len binary_data - 1) = Raise IndexError).
Proof.
  intros Hpos Hseed Hall. repeat split.
  - destruct dims as [[max_x max_y] max_z].
    pose proof Hpos as (Hx & Hy & Hz).
    pose proof (capacity_pos max_x max_y max_z Hx Hy Hz).
    rewrite (sequential_spec max_x max_y max_z Hx Hy Hz).
    rewrite sequential_last_reached by lia. now eexists.
  - rewrite (random_positions_spec _ _ _ _ _ _ Hseed).
    rewrite positions_last_reached; [now eexists _, _|].
    rewrite shuffled_len by assumption. lia.
  - destruct dims as [[max_x max_y] max_z].
    pose proof Hpos as (Hx & Hy & Hz).
    destruct (random_assignment_spec max_x max_y max_z Hx Hy Hz binary_data
                seed g Hseed) as (d & g' & _ & E).
    rewrite E. now eexists _, _.
  - now subst.
  - now subst.
  - now subst.
Qed.

(** C1, as the code has it.  On the grid (1,1,1) randomized assignment
    draws exactly Capacity = 1 bit: for every non-empty input, fill policy
    and seed, every draw lands on (0,0,0) and the listing is the single
    entry mapping (0,0,0) to the first input bit; the second bit is never
    placed. *)
Theorem single_cell_first_bit b rest fill_empty default_bit seed (g : rng) :
  seed_ok seed ->
  nth_error (stream (b :: rest)) 0 = Some (bit_of (byte_val b) 0) /\
  exists g',
    binary_to_3d_random_assignment (b :: rest) (1, 1, 1) fill_empty
      default_bit seed g =
    Ok ([(0, 0, 0, bit_of (byte_val b) 0)],
        len (b :: rest) - 1, len (b :: rest), g').
Proof.
  intros Hseed. split; [reflexivity|].
  unfold binary_to_3d_random_assignment.
  rewrite (bindM_ok _ _ _ _ _ (set_seed_ok _ _ Hseed)).
  set (g' := reseed seed g).
  change (capacity (1, 1, 1)) with 1.
  cbn [assignment_bytes]. rewrite range_8.
  destruct (single_cell_bits (byte_val b) 0 [1; 2; 3; 4; 5; 6; 7] [] g')
    as [g1 E].
  exists g1.
  rewrite (bindM_ok _ _ _ _ _
             (bindM_ok _ _ _ _ _ E)).
  unfold retM. destruct fill_empty; reflexivity.
Qed.

(** C2, as the code has it.  Truncation is signalled at byte granularity
    and the warning is printed only when fill-empty is off.  Sequential
    placement returns, whatever the fill policy, a last byte index below
    [len - 1] exactly when at least one whole input byte is left unconsumed
    ([Capacity <= 8 * (len - 1)]).  With fill-empty on, the caller produces
    no notice for any strategy and any input.  With fill-empty off, it
    produces the notice after sequential placement exactly when
    [Capacity <= 8 * (len - 1)], and after randomized-position placement
    whenever [Capacity < 8 * (len - 1)]. *)
Theorem truncation_notice binary_data dims default_bit seed (g : rng) :
  positive dims -> seed_ok seed ->
  (forall fill_empty,
      exists r last,
        binary_to_3d_sequential binary_data dims fill_empty default_bit =
          Ok (r, last, len binary_data) /\
        (last < len binary_data - 1 <->
         capacity dims <= 8 * (len binary_data - 1))) /\
  (forall mode,
      In mode ["sequential"; "random_positions"; "random_assignment"]%string ->
      exists rep g',
        binary_to_3d binary_data dims mode true default_bit seed g =
          Ok (rep, g') /\
        warning rep = None) /\
  (exists rep g',
      binary_to_3d binary_data dims "sequential" false default_bit seed g =
        Ok (rep, g') /\
      warning rep =
        if capacity dims <=? 8 * (len binary_data - 1)
        then Some ((capacity dims - 1) / 8 + 1, len binary_data)
        else None) /\
  (exists rep g',
      binary_to_3d binary_data dims "random_positions" false default_bit
        seed g = Ok (rep, g') /\
      (capacity dims < 8 * (len binary_data - 1) -> warning rep <> None)).
Proof.
  intros Hpos Hseed.
  assert (HC : 0 < capacity dims).
  { destruct dims as [[max_x max_y] max_z]. destruct Hpos as (? & ? & ?).
    now apply capacity_pos. }
  assert (HC0 : capacity dims <> 0) by lia.
  assert (Hseq : forall fill_empty, exists r,
             binary_to_3d_sequential binary_data dims fill_empty default_bit
             = Ok (r, sequential_last (len binary_data) (capacity dims),
                   len binary_data)).
  { intros fill_empty. destruct dims as [[max_x max_y] max_z].
    pose proof Hpos as (Hx & Hy & Hz).
    rewrite (sequential_spec max_x max_y max_z Hx Hy Hz). now eexists. }
  assert (Hrp : forall fill_empty, exists r g',
             binary_to_3d_random_positions binary_data dims fill_empty
               default_bit seed g
             = Ok (r, positions_last (len binary_data) (capacity dims),
                   len binary_data, g')).
  { intros fill_empty. rewrite (random_positions_spec _ _ _ _ _ _ Hseed).
    rewrite shuffled_len by assumption. now eexists _, _. }
  assert (Hra : forall fill_empty, exists r g',
             binary_to_3d_random_assignment binary_data dims fill_empty
               default_bit seed g
             = Ok (r, len binary_data - 1, len binary_data, g')).
  { intros fill_empty. destruct dims as [[max_x max_y] max_z].
    pose proof Hpos as (Hx & Hy & Hz).
    destruct (random_assignment_spec max_x max_y max_z Hx Hy Hz binary_data
                seed g Hseed) as (d & g' & _ & E).
    rewrite E. now eexists _, _. }
  split; [|split; [|split]].
  - intros fill_empty. destruct (Hseq fill_empty) as [r E].
    exists r, (sequential_last (len binary_data) (capacity dims)).
    split; [exact E|].
    rewrite <- Z.ltb_lt, <- Z.leb_le.
    now rewrite sequential_last_short.
  - intros mode [<- | [<- | [<- | []]]].
    + destruct (Hseq true) as [r E].
      rewrite (caller_sequential _ _ _ _ _ _ _ _ _ HC0 E).
      eexists _, _. split; [reflexivity|].
      cbn [warning negb]. now rewrite andb_false_r.
    + destruct (Hrp true) as (r & g' & E).
      rewrite (caller_random_positions _ _ _ _ _ _ _ _ _ _ HC0 E).
      eexists _, _. split; [reflexivity|].
      cbn [warning negb]. now rewrite andb_false_r.
    + destruct (Hra true) as (r & g' & E).
      rewrite (caller_random_assignment _ _ _ _ _ _ _ _ _ _ HC0 E).
      eexists _, _. split; [reflexivity|].
      cbn [warning negb]. now rewrite andb_false_r.
  - destruct (Hseq false) as [r E].
    rewrite (caller_sequential _ _ _ _ _ _ _ _ _ HC0 E).
    eexists _, _. split; [reflexivity|].
    cbn [warning negb]. rewrite andb_true_r.
    rewrite sequential_last_short by assumption.
    destruct (Z.leb_spec (capacity dims) (8 * (len binary_data - 1)));
      [|reflexivity].
    unfold sequential_last.
    destruct (Z.ltb_spec (8 * len binary_data) (capacity dims)); [lia|].
    reflexivity.
  - destruct (Hrp false) as (r & g' & E).
    rewrite (caller_random_positions _ _ _ _ _ _ _ _ _ _ HC0 E).
    eexists _, _. split; [reflexivity|].
    intros Hshort. cbn [warning negb]. rewrite andb_true_r.
    rewrite positions_last_short by assumption. discriminate.
Qed.

(** C8, as the code has it.  The mapper does not validate the dimensions
    and has no configuration error of its own.  On a non-empty input:
    sequential placement with a zero dimension raises [ZeroDivisionError]
    at the first bit; randomized assignment with a zero or negative
    dimension raises [ValueError] at the first draw; neither returns a
    listing.  Randomized-position placement with a zero or negative
    dimension returns an empty listing without raising. *)
Theorem unvalidated_dimensions b rest max_x max_y max_z fill_empty
    default_bit seed (g : rng) :
  max_x <= 0 \/ max_y <= 0 \/ max_z <= 0 ->
  (max_x = 0 \/ max_y = 0 \/ max_z = 0 ->
   binary_to_3d_sequential (b :: rest) (max_x, max_y, max_z) fill_empty
     default_bit = Raise ZeroDivisionError) /\
  binary_to_3d_random_assignment (b :: rest) (max_x, max_y, max_z)
    fill_empty default_bit seed g = Raise ValueError /\
  (seed_ok seed ->
   exists g',
     binary_to_3d_random_positions (b :: rest) (max_x, max_y, max_z)
       fill_empty default_bit seed g = Ok ([], 0, len (b :: rest), g')).
Proof.
  intros Hneg. split; [|split].
  - intros Hzero. unfold binary_to_3d_sequential.
    assert (HC : capacity (max_x, max_y, max_z) = 0).
    { cbn. destruct Hzero as [-> | [-> | ->]]; ring. }
    rewrite HC. cbn [sequential_bytes]. rewrite range_8.
    cbn [sequential_bits]. reflexivity.
  - unfold binary_to_3d_random_assignment.
    destruct (set_seed_cases seed g) as [E|E].
    + rewrite (bindM_ok _ _ _ _ _ E). cbn [assignment_bytes]. rewrite range_8.
      apply bindM_raise, bindM_raise.
      now apply assignment_bits_nonpositive.
    + now apply bindM_raise.
  - intros Hseed. rewrite (random_positions_spec _ _ _ _ _ _ Hseed).
    assert (Hempty : fst (shuffled (all_coordinates (max_x, max_y, max_z))
                            (reseed seed g)) = []).
    { apply Permutation_nil.
      rewrite <- (all_coordinates_empty (max_x, max_y, max_z)) at 1.
      - apply shuffled_perm.
      - cbn. lia. }
    rewrite Hempty. eexists. unfold layout, positions_last.
    cbn [firstn placed length app Nat.sub seq defaults map].
    change (len (@nil coord)) with 0.
    destruct (Z.leb_spec (8 * len (b :: rest)) 0) as [H|H].
    { unfold len in H. cbn [length] in H. lia. }
    destruct fill_empty; reflexivity.
Qed.

(** Randomized assignment always reports the last byte as consumed, so the
    caller never warns after it, whatever was left undrawn. *)
Remark random_assignment_silent binary_data dims fill_empty default_bit seed
    (g : rng) :
  positive dims -> seed_ok seed ->
  exists rep g',
    binary_to_3d binary_data dims "random_assignment" fill_empty default_bit
      seed g = Ok (rep, g') /\
    warning rep = None.
Proof.
  intros Hpos Hseed. destruct dims as [[max_x max_y] max_z].
  pose proof Hpos as (Hx & Hy & Hz).
  pose proof (capacity_pos max_x max_y max_z Hx Hy Hz) as HC.
  destruct (random_assignment_spec max_x max_y max_z Hx Hy Hz binary_data
              seed g Hseed) as (d & g' & _ & E).
  rewrite (caller_random_assignment _ _ _ _ _ _ _ _ _ _
             ltac:(intros E0; rewrite E0 in HC; lia)
             (E fill_empty default_bit)).
  eexists _, _. split; [reflexivity|].
  cbn [warning]. now rewrite Z.ltb_irrefl.
Qed.

End Claims.

(** * Concrete runs, on the linear congruential generator *)

(** Without a seed the listing depends on the state the generator is in. *)
Example unseeded_runs_differ :
  binary_to_3d_random_positions (R := lcg_random) [xb0] (2, 2, 1) true 0
    None 1 <>
  binary_to_3d_random_positions (R := lcg_random) [xb0] (2, 2, 1) true 0
    None 2.
Proof. vm_compute. discriminate. Qed.

Lemma random_positions_injective_witness :
  positive (2, 2, 2) /\ seed_ok (Some 7) /\
  exists r last g',
    binary_to_3d_random_positions (R := lcg_random) [xb0] (2, 2, 2) true 0
      (Some 7) 0 = Ok (r, last, len [xb0], g') /\
    (forall i b,
        nth_error (stream [xb0]) i = Some b ->
        Z.of_nat i < capacity (2, 2, 2) ->
        exists c, nth_error r i = Some (c, b) /\ in_grid (2, 2, 2) c) /\
    (forall i j ci bi cj bj,
        nth_error r i = Some (ci, bi) -> nth_error r j = Some (cj, bj) ->
        i <> j -> ci <> cj).
Proof.
  split; [cbn; lia|]. split; [cbn; lia|].
  apply (random_positions_injective (R := lcg_random) [xb0] (2, 2, 2) true 0
           (Some 7) 0); cbn; lia.
Defined.

Lemma assignment_size_invariant_witness :
  positive (2, 2, 1) /\ seed_ok (Some 42) /\
  exists sparse full last last' g1 g2,
    binary_to_3d_random_assignment (R := lcg_random) [x40; xff] (2, 2, 1)
      false 5 (Some 42) 0 = Ok (sparse, last, len [x40; xff], g1) /\
    binary_to_3d_random_assignment (R := lcg_random) [x40; xff] (2, 2, 1)
      true 5 (Some 42) 0 = Ok (full, last', len [x40; xff], g2) /\
    bounded_assignment (2, 2, 1) 5 sparse full.
Proof.
  split; [cbn; lia|]. split; [cbn; lia|].
  apply (assignment_size_invariant (R := lcg_random) [x40; xff] (2, 2, 1) 5
           (Some 42) 0); cbn; lia.
Defined.

Lemma empty_input_valid_witness :
  positive (1, 1, 1) /\ seed_ok None /\
  binary_to_3d_sequential [] (1, 1, 1) false 0 = Ok ([], -1, 0) /\
  exists r, binary_to_3d_sequential [] (1, 1, 1) true 0 = Ok (r, -1, 0) /\
            default_grid (1, 1, 1) 0 r.
Proof.
  split; [cbn; lia|]. split; [exact I|].
  pose proof (empty_input_valid (R := lcg_random) (1, 1, 1) 0 None 0
                ltac:(cbn; lia) I) as H.
  split; [apply H|]. apply H.
Defined.

Lemma consumed_input_diagnostics_witness :
  positive (2, 2, 2) /\ seed_ok (Some 7) /\
  8 * len [xb0] <= capacity (2, 2, 2) /\
  (exists r, binary_to_3d_sequential [xb0] (2, 2, 2) false 0
             = Ok (r, len [xb0] - 1, len [xb0])) /\
  (exists r g', binary_to_3d_random_positions (R := lcg_random) [xb0]
                  (2, 2, 2) false 0 (Some 7) 0
                = Ok (r, len [xb0] - 1, len [xb0], g')) /\
  (exists r g', binary_to_3d_random_assignment (R := lcg_random) [xb0]
                  (2, 2, 2) false 0 (Some 7) 0
                = Ok (r, len [xb0] - 1, len [xb0], g')).
Proof.
  split; [cbn; lia|]. split; [cbn; lia|]. split; [cbn; lia|].
  pose proof (consumed_input_diagnostics (R := lcg_random) [xb0] (2, 2, 2)
                false 0 (Some 7) 0 ltac:(cbn; lia) ltac:(cbn; lia)
                ltac:(cbn; lia)) as (H1 & H2 & H3 & _).
  auto.
Defined.

Lemma single_cell_first_bit_witness :
  seed_ok (Some 42) /\
  nth_error (stream [x40]) 0 = Some (bit_of (byte_val x40) 0) /\
  exists g',
    binary_to_3d_random_assignment (R := lcg_random) [x40] (1, 1, 1) false 0
      (Some 42) 0 =
    Ok ([(0, 0, 0, bit_of (byte_val x40) 0)], len [x40] - 1, len [x40], g').
Proof.
  split; [cbn; lia|].
  apply (single_cell_first_bit (R := lcg_random) x40 [] false 0 (Some 42) 0).
  cbn; lia.
Defined.

(** On the grid (1,1,1) the byte [0x40] (bits 0,1,0,...) leaves (0,0,0)
    holding 0, its first bit; the second bit, 1, is in no entry. *)
Lemma second_bit_not_placed :
  exists r last n g',
    binary_to_3d_random_assignment (R := lcg_random) [x40] (1, 1, 1) false 0
      (Some 42) 0 = Ok (r, last, n, g') /\
    r = [(0, 0, 0, 0)] /\
    nth_error (stream [x40]) 0 = Some 0 /\
    nth_error (stream [x40]) 1 = Some 1 /\
    ~ In (0, 0, 0, 1) r.
Proof.
  eexists _, _, _, _. split; [vm_compute; reflexivity|].
  split; [reflexivity|]. split; [reflexivity|]. split; [reflexivity|].
  intros [H | []]. discriminate H.
Qed.

Lemma truncation_notice_witness :
  positive (1, 1, 1) /\ seed_ok None /\
  exists rep g',
    binary_to_3d (R := lcg_random) [x40; x01] (1, 1, 1) "sequential" false 0
      None 0 = Ok (rep, g') /\
    warning rep =
      if capacity (1, 1, 1) <=? 8 * (len [x40; x01] - 1)
      then Some ((capacity (1, 1, 1) - 1) / 8 + 1, len [x40; x01])
      else None.
Proof.
  split; [cbn; lia|]. split; [exact I|].
  apply (truncation_notice (R := lcg_random) [x40; x01] (1, 1, 1) 0 None 0
           ltac:(cbn; lia) I).
Defined.

(** Eight input bits on a one-cell grid with fill-empty on: seven bits are
    dropped, the strategy returns the same pair (0, 1) as for an input it
    consumed whole, and the caller prints no warning. *)
Lemma truncation_unreported :
  capacity (1, 1, 1) < 8 * len [x40] /\
  binary_to_3d_sequential [x40] (1, 1, 1) true 0 =
    Ok ([(0, 0, 0, 0)], len [x40] - 1, len [x40]) /\
  exists rep g',
    binary_to_3d (R := lcg_random) [x40] (1, 1, 1) "sequential" true 0
      None 0 = Ok (rep, g') /\
    warning rep = None.
Proof.
  split; [vm_compute; reflexivity|].
  split; [vm_compute; reflexivity|].
  eexists _, _. split; [vm_compute; reflexivity | reflexivity].
Qed.

Lemma unvalidated_dimensions_witness :
  (0 <= 0 \/ 2 <= 0 \/ 2 <= 0) /\
  (0 = 0 \/ 2 = 0 \/ 2 = 0) /\
  binary_to_3d_sequential [x80] (0, 2, 2) true 0 = Raise ZeroDivisionError /\
  binary_to_3d_random_assignment (R := lcg_random) [x80] (0, 2, 2) true 0
    None 0 = Raise ValueError.
Proof.
  split; [lia|]. split; [lia|].
  pose proof (unvalidated_dimensions (R := lcg_random) x80 [] 0 2 2 true 0
                None 0 ltac:(lia)) as (H1 & H2 & _).
  split; [apply H1; lia | exact H2].
Defined.

(** A negative dimension is accepted by sequential placement, which returns
    a one-entry listing; a zero dimension is accepted by randomized-position
    placement, which returns an empty listing. *)
Lemma nonpositive_dimensions_accepted :
  binary_to_3d_sequential [x80] (-1, 1, 1) true 0 = Ok ([(0, 0, 0, 1)], 0, 1)
  /\
  exists g',
    binary_to_3d_random_positions (R := lcg_random) [x80] (0, 1, 1) true 0
      None 0 = Ok ([], 0, 1, g').
Proof.
  split; [vm_compute; reflexivity|].
  eexists. vm_compute. reflexivity.
Qed.

(** * Further properties of the mapper *)

(** ** Bit extraction *)

Lemma bit_of_binary byte bit_idx :
  bit_of byte bit_idx = 0 \/ bit_of byte bit_idx = 1.
Proof.
  unfold bit_of.
  pose proof (Z.land_ones (Z.shiftr byte (7 - bit_idx)) 1 ltac:(lia)) as E.
  change (Z.ones 1) with 1 in E. change (2 ^ 1) with 2 in E. rewrite E.
  pose proof (Z.mod_pos_bound (Z.shiftr byte (7 - bit_idx)) 2 ltac:(lia)).
  lia.
Qed.

(** The eight bits taken from a byte are binary digits, most significant
    first: read back in base 2 they give the byte. *)
Theorem byte_bits_msb_first (b : byte) :
  Forall (fun v => v = 0 \/ v = 1) (map (bit_of (byte_val b)) (py_range 8)) /\
  fold_left (fun acc v => 2 * acc + v)
    (map (bit_of (byte_val b)) (py_range 8)) 0 = byte_val b.
Proof.
  split.
  - apply Forall_forall. intros v Hv.
    apply in_map_iff in Hv as (j & <- & _). apply bit_of_binary.
  - destruct b; vm_compute; reflexivity.
Qed.

(** ** What the truncating strategies list, position by position *)

Lemma defaults_placed f default_bit start n :
  defaults f default_bit (seq start n) = placed f start (repeat default_bit n).
Proof.
  revert start. induction n as [|n IH]; intros start; cbn; [reflexivity|].
  f_equal. apply IH.
Qed.

Lemma layout_as_placed f bits c fill_empty default_bit :
  layout f bits c fill_empty default_bit =
  placed f 0
    (firstn c bits ++
     (if fill_empty then repeat default_bit (c - length bits) else [])).
Proof.
  unfold layout. rewrite placed_app. f_equal.
  destruct fill_empty; [|reflexivity].
  rewrite defaults_placed, length_firstn.
  destruct (Nat.le_gt_cases c (length bits)) as [Hfull|Hroom].
  - replace (c - length bits)%nat with 0%nat by lia. reflexivity.
  - f_equal. lia.
Qed.

Lemma layout_when_full f bits c fill_empty default_bit :
  (c <= length bits)%nat ->
  layout f bits c fill_empty default_bit = placed f 0 (firstn c bits).
Proof.
  intros Hfull. rewrite layout_as_placed.
  replace (c - length bits)%nat with 0%nat by lia.
  destruct fill_empty; cbn [repeat]; now rewrite app_nil_r.
Qed.

Lemma length_layout f bits c fill_empty default_bit :
  length (layout f bits c fill_empty default_bit) =
  if fill_empty then Nat.max c (Nat.min c (length bits))
  else Nat.min c (length bits).
Proof.
  rewrite layout_as_placed, length_placed, length_app, length_firstn.
  destruct fill_empty; [rewrite repeat_length | cbn [length]]; lia.
Qed.

Lemma layout_input_entry f bits c fill_empty default_bit i b :
  nth_error bits i = Some b -> (i < c)%nat ->
  nth_error (layout f bits c fill_empty default_bit) i = Some (f i, b).
Proof.
  intros Hb Hi. rewrite layout_as_placed.
  apply (nth_error_placed f 0). rewrite nth_error_app1.
  - rewrite nth_error_firstn.
    destruct (Nat.ltb_spec i c); [assumption | lia].
  - rewrite length_firstn.
    assert (i < length bits)%nat by (apply nth_error_Some; congruence). lia.
Qed.

Lemma layout_default_entry f bits c default_bit i :
  (length bits <= i)%nat -> (i < c)%nat ->
  nth_error (layout f bits c true default_bit) i = Some (f i, default_bit).
Proof.
  intros Hb Hi. rewrite layout_as_placed.
  apply (nth_error_placed f 0). rewrite nth_error_app2.
  - rewrite length_firstn. apply nth_error_repeat. lia.
  - rewrite length_firstn. lia.
Qed.

Lemma layout_coords_range f bits c fill_empty default_bit co :
  In co (coords (layout f bits c fill_empty default_bit)) ->
  exists i, (i < c)%nat /\ co = f i.
Proof.
  destruct fill_empty.
  - rewrite coords_layout_full. intros H.
    apply in_map_iff in H as (i & <- & Hi). apply in_seq in Hi.
    exists i. split; [lia | reflexivity].
  - rewrite coords_layout_sparse. intros H.
    apply in_map_iff in H as (i & <- & Hi). apply in_seq in Hi.
    exists i. split; [lia | reflexivity].
Qed.

(** Sequential placement, entry by entry: for positive dimensions the call
    returns; entry [i] of the listing is input bit [i] on the cell
    [(i % max_x, (i // max_x) % max_y, i // (max_x * max_y))] for every bit
    position below Capacity; with fill-empty on, the positions from the end
    of the input up to Capacity carry the default bit on the same cells; the
    listing has Capacity entries with fill-empty on and
    [min(8 * len, Capacity)] without. *)
Theorem sequential_entries binary_data dims fill_empty default_bit :
  positive dims ->
  exists r last,
    binary_to_3d_sequential binary_data dims fill_empty default_bit =
      Ok (r, last, len binary_data) /\
    (forall i b,
        nth_error (stream binary_data) i = Some b ->
        Z.of_nat i < capacity dims ->
        nth_error r i = Some (decode dims (Z.of_nat i), b)) /\
    (fill_empty = true ->
     forall i,
       8 * len binary_data <= Z.of_nat i -> Z.of_nat i < capacity dims ->
       nth_error r i = Some (decode dims (Z.of_nat i), default_bit)) /\
    len r = if fill_empty then capacity dims
            else Z.min (8 * len binary_data) (capacity dims).
Proof.
  intros Hpos. destruct dims as [[max_x max_y] max_z].
  pose proof Hpos as (Hx & Hy & Hz).
  pose proof (capacity_pos max_x max_y max_z Hx Hy Hz) as HC.
  rewrite (sequential_spec max_x max_y max_z Hx Hy Hz).
  eexists _, _. split; [reflexivity|]. split; [|split].
  - intros i b Hb Hi. apply layout_input_entry; [assumption | lia].
  - intros -> i Hlo Hhi. apply layout_default_entry; [|lia].
    rewrite length_stream. unfold len in Hlo. lia.
  - unfold len. rewrite length_layout, length_stream.
    destruct fill_empty; lia.
Qed.

Lemma sequential_entries_witness :
  positive (2, 2, 2) /\
  exists r last,
    binary_to_3d_sequential [xb0] (2, 2, 2) false 0 =
      Ok (r, last, len [xb0]) /\
    (forall i b,
        nth_error (stream [xb0]) i = Some b ->
        Z.of_nat i < capacity (2, 2, 2) ->
        nth_error r i = Some (decode (2, 2, 2) (Z.of_nat i), b)).
Proof.
  split; [cbn; lia|].
  destruct (sequential_entries [xb0] (2, 2, 2) false 0 ltac:(cbn; lia))
    as (r & last & E & H & _).
  now exists r, last.
Defined.

(** Once the input holds at least Capacity bits, the fill policy and the
    default bit make no difference to either truncating strategy. *)
Theorem full_grid_ignores_fill {R : PyRandom} binary_data dims fill_empty
    fill_empty' default_bit default_bit' seed (g : rng) :
  positive dims -> seed_ok seed ->
  capacity dims <= 8 * len binary_data ->
  binary_to_3d_sequential binary_data dims fill_empty default_bit =
  binary_to_3d_sequential binary_data dims fill_empty' default_bit' /\
  binary_to_3d_random_positions binary_data dims fill_empty default_bit
    seed g =
  binary_to_3d_random_positions binary_data dims fill_empty' default_bit'
    seed g.
Proof.
  intros Hpos Hseed Hfull. split.
  - destruct dims as [[max_x max_y] max_z].
    pose proof Hpos as (Hx & Hy & Hz).
    rewrite !(sequential_spec max_x max_y max_z Hx Hy Hz).
    rewrite !layout_when_full; [reflexivity| |];
      rewrite length_stream; unfold len in Hfull; lia.
  - rewrite !(random_positions_spec _ _ _ _ _ _ Hseed).
    pose proof (shuffled_len dims (reseed seed g) Hpos) as Hlen.
    unfold len in Hlen, Hfull.
    rewrite !layout_when_full; [reflexivity| |]; rewrite length_stream; lia.
Qed.

Lemma full_grid_ignores_fill_witness :
  positive (2, 2, 2) /\ seed_ok (Some 7) /\
  capacity (2, 2, 2) <= 8 * len [xb0; x0f] /\
  binary_to_3d_sequential [xb0; x0f] (2, 2, 2) true 1 =
  binary_to_3d_sequential [xb0; x0f] (2, 2, 2) false 0.
Proof.
  split; [cbn; lia|]. split; [cbn; lia|]. split; [cbn; lia|].
  apply (full_grid_ignores_fill (R := lcg_random) [xb0; x0f] (2, 2, 2) true
           false 1 0 (Some 7) 0); cbn; lia.
Defined.

(** ** Every listed coordinate is a cell; filled listings list every cell *)

Lemma cells_permutation dims (f : nat -> coord) (c : nat) :
  (forall i j, (i < c)%nat -> (j < c)%nat -> f i = f j -> i = j) ->
  (forall i, (i < c)%nat -> in_grid dims (f i)) ->
  (forall co, in_grid dims co -> exists i, (i < c)%nat /\ f i = co) ->
  Permutation (map f (seq 0 c)) (all_coordinates dims).
Proof.
  intros Hinj Hgrid Hcover. apply NoDup_Permutation.
  - apply (NoDup_cells f c Hinj). lia.
  - apply NoDup_all_coordinates.
  - intros co. rewrite in_all_coordinates, in_map_iff. split.
    + intros (i & <- & Hi). apply in_seq in Hi. apply Hgrid. lia.
    + intros Hco. destruct (Hcover co Hco) as (i & Hi & <-).
      exists i. split; [reflexivity|]. apply in_seq. lia.
Qed.

(** For each strategy and all positive dimensions, every coordinate of the
    listing lies inside the grid, and with fill-empty on the coordinates of
    the listing are a rearrangement of
    [product(range(max_x), range(max_y), range(max_z))]: every cell is listed
    exactly once. *)
Theorem listings_cover_grid {R : PyRandom} binary_data dims fill_empty
    default_bit seed (g : rng) :
  positive dims -> seed_ok seed ->
  (exists r last,
      binary_to_3d_sequential binary_data dims fill_empty default_bit =
        Ok (r, last, len binary_data) /\
      Forall (in_grid dims) (coords r) /\
      (fill_empty = true -> Permutation (coords r) (all_coordinates dims))) /\
  (exists r last g',
      binary_to_3d_random_positions binary_data dims fill_empty default_bit
        seed g = Ok (r, last, len binary_data, g') /\
      Forall (in_grid dims) (coords r) /\
      (fill_empty = true -> Permutation (coords r) (all_coordinates dims))) /\
  (exists r last g',
      binary_to_3d_random_assignment binary_data dims fill_empty default_bit
        seed g = Ok (r, last, len binary_data, g') /\
      Forall (in_grid dims) (coords r) /\
      (fill_empty = true -> Permutation (coords r) (all_coordinates dims))).
Proof.
  intros Hpos Hseed. split; [|split].
  - assert (HC : 0 < capacity dims).
    { destruct dims as [[max_x max_y] max_z]. destruct Hpos as (? & ? & ?).
      now apply capacity_pos. }
    assert (E : exists last,
               binary_to_3d_sequential binary_data dims fill_empty
                 default_bit =
               Ok (layout (row_major dims) (stream binary_data)
                     (Z.to_nat (capacity dims)) fill_empty default_bit,
                   last, len binary_data)).
    { destruct dims as [[max_x max_y] max_z].
      pose proof Hpos as (Hx & Hy & Hz).
      rewrite (sequential_spec max_x max_y max_z Hx Hy Hz). now eexists. }
    destruct E as [last E]. rewrite E.
    eexists _, _. split; [reflexivity|]. split.
    + apply Forall_forall. intros co Hco.
      apply layout_coords_range in Hco as (i & Hi & ->).
      now apply row_major_in_grid.
    + intros ->. rewrite coords_layout_full. apply cells_permutation.
      * intros i j _ _. now apply row_major_inj.
      * intros i Hi. now apply row_major_in_grid.
      * intros co Hco. now apply row_major_cover.
  - rewrite (random_positions_spec _ _ _ _ _ _ Hseed).
    pose proof (shuffled_NoDup dims (reseed seed g)) as Hnd.
    pose proof (shuffled_in dims (reseed seed g)) as Hin.
    set (all_coords := fst (shuffled (all_coordinates dims) (reseed seed g)))
      in *.
    eexists _, _, _. split; [reflexivity|]. split.
    + apply Forall_forall. intros co Hco.
      apply layout_coords_range in Hco as (i & Hi & ->).
      apply Hin. now apply nth_In.
    + intros ->. rewrite coords_layout_full. apply cells_permutation.
      * intros i j Hi Hj. now apply nth_cell_inj.
      * intros i Hi. apply Hin. now apply nth_In.
      * intros co Hco. apply Hin in Hco.
        destruct (In_nth _ _ (0, 0, 0) Hco) as (i & Hi & E). now exists i.
  - destruct dims as [[max_x max_y] max_z].
    pose proof Hpos as (Hx & Hy & Hz).
    destruct (random_assignment_spec max_x max_y max_z Hx Hy Hz binary_data
                seed g Hseed) as (d & g' & [Hnd Hgrid] & E).
    rewrite E. eexists _, _, _. split; [reflexivity|].
    assert (Hco : coords (assignment_listing (max_x, max_y, max_z) d true
                            default_bit) =
                  all_coordinates (max_x, max_y, max_z)).
    { unfold assignment_listing, coords. rewrite map_map. apply map_id. }
    split.
    + destruct fill_empty.
      * rewrite Hco. apply Forall_forall. intros co.
        apply in_all_coordinates.
      * apply Forall_forall. exact Hgrid.
    + intros ->. now rewrite Hco.
Qed.

Lemma listings_cover_grid_witness :
  positive (2, 2, 1) /\ seed_ok (Some 42) /\
  exists r last g',
    binary_to_3d_random_positions (R := lcg_random) [x40] (2, 2, 1) true 0
      (Some 42) 0 = Ok (r, last, len [x40], g') /\
    Forall (in_grid (2, 2, 1)) (coords r) /\
    (true = true -> Permutation (coords r) (all_coordinates (2, 2, 1))).
Proof.
  split; [cbn; lia|]. split; [cbn; lia|].
  apply (listings_cover_grid (R := lcg_random) [x40] (2, 2, 1) true 0
           (Some 42) 0); cbn; lia.
Defined.

(** ** The order of the written listing *)

From Stdlib Require Import Sorting.Sorted.

(** Ordered by [(item[2], item[1], item[0])], ties allowed. *)
Definition zyx_sorted (l : list entry) : Prop :=
  Sorted (fun a b => key_le a b = true) l.

Lemma key_le_total a b : key_le a b = false -> key_le b a = true.
Proof.
  destruct a as [[[xa ya] za] ba], b as [[[xb yb] zb] bb]. unfold key_le.
  destruct (Z.ltb_spec za zb); destruct (Z.eqb_spec za zb);
    destruct (Z.ltb_spec ya yb); destruct (Z.eqb_spec ya yb);
    destruct (Z.leb_spec xa xb); cbn; try discriminate; intros _;
    destruct (Z.ltb_spec zb za); destruct (Z.eqb_spec zb za);
    destruct (Z.ltb_spec yb ya); destruct (Z.eqb_spec yb ya);
    destruct (Z.leb_spec xb xa); cbn; try reflexivity; lia.
Qed.

Lemma insert_sorted_perm e l : Permutation (insert_sorted e l) (e :: l).
Proof.
  induction l as [|e' l IH]; cbn; [reflexivity|].
  destruct (key_le e e'); [reflexivity|].
  rewrite IH. apply perm_swap.
Qed.

Lemma sort_zyx_perm l : Permutation (sort_zyx l) l.
Proof.
  induction l as [|e l IH]; cbn; [constructor|].
  fold (sort_zyx l). rewrite insert_sorted_perm. now constructor.
Qed.

Lemma insert_sorted_sorted e l : zyx_sorted l -> zyx_sorted (insert_sorted e l).
Proof.
  unfold zyx_sorted. induction 1 as [|e' l Hl IH Hhd]; cbn.
  - repeat constructor.
  - destruct (key_le e e') eqn:E.
    + repeat constructor; assumption.
    + constructor; [assumption|].
      destruct Hhd as [|e'' l' Hrel]; cbn.
      * constructor. now apply key_le_total.
      * destruct (key_le e e''); constructor;
          [now apply key_le_total | assumption].
Qed.

Lemma sort_zyx_sorted l : zyx_sorted (sort_zyx l).
Proof.
  induction l as [|e l IH]; cbn; [constructor|].
  fold (sort_zyx l). now apply insert_sorted_sorted.
Qed.

Lemma sort_zyx_id l : zyx_sorted l -> sort_zyx l = l.
Proof.
  unfold zyx_sorted. induction 1 as [|e l Hl IH Hhd]; cbn; [reflexivity|].
  fold (sort_zyx l). rewrite IH.
  destruct Hhd as [|e' l' Hrel]; cbn; [reflexivity|]. now rewrite Hrel.
Qed.

Lemma key_le_row_major max_x max_y max_z p b b' :
  0 < max_x -> 0 < max_y ->
  key_le (decode (max_x, max_y, max_z) p, b)
         (decode (max_x, max_y, max_z) (p + 1), b') = true.
Proof.
  intros Hx Hy.
  pose proof (encode_decode max_x max_y max_z Hx Hy p) as Ep.
  pose proof (encode_decode max_x max_y max_z Hx Hy (p + 1)) as Eq.
  unfold encode, decode in *. unfold key_le.
  pose proof (Z.mod_pos_bound p max_x Hx).
  pose proof (Z.mod_pos_bound (p + 1) max_x Hx).
  pose proof (Z.mod_pos_bound (p / max_x) max_y Hy).
  pose proof (Z.mod_pos_bound ((p + 1) / max_x) max_y Hy).
  set (xa := p mod max_x) in *. set (xb := (p + 1) mod max_x) in *.
  set (ya := (p / max_x) mod max_y) in *.
  set (yb := ((p + 1) / max_x) mod max_y) in *.
  set (za := p / (max_x * max_y)) in *.
  set (zb := (p + 1) / (max_x * max_y)) in *.
  assert (Hya : 0 <= ya * max_x <= (max_y - 1) * max_x) by nia.
  assert (Hyb : 0 <= yb * max_x <= (max_y - 1) * max_x) by nia.
  assert (HM : 0 < max_x * max_y) by nia.
  destruct (Z.ltb_spec za zb) as [|Hz]; [reflexivity|]. cbn [orb].
  destruct (Z.eqb_spec za zb) as [Ez|Hnz].
  - cbn [andb]. rewrite Ez in Ep.
    destruct (Z.ltb_spec ya yb) as [|Hyy]; [reflexivity|]. cbn [orb].
    destruct (Z.eqb_spec ya yb) as [Ey|Hny].
    + cbn [andb]. rewrite Ey in Ep. apply Z.leb_le. lia.
    + exfalso. assert (yb + 1 <= ya) by lia.
      assert ((yb + 1) * max_x <= ya * max_x) by nia. lia.
  - exfalso. assert (zb + 1 <= za) by lia.
    assert ((zb + 1) * (max_x * max_y) <= za * (max_x * max_y)) by nia.
    nia.
Qed.

Lemma placed_sorted f start bits :
  (forall i b b', key_le (f i, b) (f (S i), b') = true) ->
  zyx_sorted (placed f start bits).
Proof.
  intros Hstep. unfold zyx_sorted. revert start.
  induction bits as [|b bits IH]; intros start; cbn; [constructor|].
  constructor; [apply IH|].
  destruct bits as [|b' bits]; cbn; constructor. apply Hstep.
Qed.

(** The sequential listing already is in the order the caller sorts the
    other two into: sorting it by (z, y, x) changes nothing, which is why the
    caller leaves it unsorted. *)
Theorem sequential_listing_sorted binary_data dims fill_empty default_bit :
  positive dims ->
  exists r last,
    binary_to_3d_sequential binary_data dims fill_empty default_bit =
      Ok (r, last, len binary_data) /\
    zyx_sorted r /\ sort_zyx r = r.
Proof.
  intros Hpos. destruct dims as [[max_x max_y] max_z].
  pose proof Hpos as (Hx & Hy & Hz).
  rewrite (sequential_spec max_x max_y max_z Hx Hy Hz).
  eexists _, _. split; [reflexivity|].
  assert (Hs : zyx_sorted
                 (layout (row_major (max_x, max_y, max_z))
                    (stream binary_data)
                    (Z.to_nat (capacity (max_x, max_y, max_z)))
                    fill_empty default_bit)).
  { rewrite layout_as_placed. apply placed_sorted.
    intros i b b'. unfold row_major.
    replace (Z.of_nat (S i)) with (Z.of_nat i + 1) by lia.
    now apply key_le_row_major. }
  split; [exact Hs | now apply sort_zyx_id].
Qed.

Lemma sequential_listing_sorted_witness :
  positive (2, 3, 2) /\
  exists r last,
    binary_to_3d_sequential [xb0] (2, 3, 2) true 1 =
      Ok (r, last, len [xb0]) /\
    zyx_sorted r /\ sort_zyx r = r.
Proof.
  split; [cbn; lia|].
  apply (sequential_listing_sorted [xb0] (2, 3, 2) true 1). cbn; lia.
Defined.

(** The caller writes, for every mode, a rearrangement of the strategy's
    listing that is ordered by (z, y, x): the sequential listing as it is,
    the two randomized ones after sorting. *)
Theorem written_listing_sorted {R : PyRandom} binary_data dims fill_empty
    default_bit seed (g : rng) :
  positive dims -> seed_ok seed ->
  (exists r last rep,
      binary_to_3d_sequential binary_data dims fill_empty default_bit =
        Ok (r, last, len binary_data) /\
      binary_to_3d binary_data dims "sequential" fill_empty default_bit
        seed g = Ok (rep, g) /\
      written rep = r /\ zyx_sorted (written rep)) /\
  (exists r last g' rep,
      binary_to_3d_random_positions binary_data dims fill_empty default_bit
        seed g = Ok (r, last, len binary_data, g') /\
      binary_to_3d binary_data dims "random_positions" fill_empty
        default_bit seed g = Ok (rep, g') /\
      Permutation (written rep) r /\ zyx_sorted (written rep)) /\
  (exists r last g' rep,
      binary_to_3d_random_assignment binary_data dims fill_empty default_bit
        seed g = Ok (r, last, len binary_data, g') /\
      binary_to_3d binary_data dims "random_assignment" fill_empty
        default_bit seed g = Ok (rep, g') /\
      Permutation (written rep) r /\ zyx_sorted (written rep)).
Proof.
  intros Hpos Hseed.
  assert (HC0 : capacity dims <> 0).
  { destruct dims as [[max_x max_y] max_z]. destruct Hpos as (Hx & Hy & Hz).
    pose proof (capacity_pos max_x max_y max_z Hx Hy Hz). lia. }
  split; [|split].
  - destruct (sequential_listing_sorted binary_data dims fill_empty
                default_bit Hpos) as (r & last & E & Hs & _).
    exists r, last. eexists. split; [exact E|].
    split; [apply (caller_sequential _ _ _ _ _ _ _ _ _ HC0 E)|].
    cbn [written]. now split.
  - destruct (listings_cover_grid binary_data dims fill_empty default_bit
                seed g Hpos Hseed) as (_ & (r & last & g' & E & _) & _).
    exists r, last, g'. eexists. split; [exact E|].
    split; [apply (caller_random_positions _ _ _ _ _ _ _ _ _ _ HC0 E)|].
    cbn [written]. split; [apply sort_zyx_perm | apply sort_zyx_sorted].
  - destruct (listings_cover_grid binary_data dims fill_empty default_bit
                seed g Hpos Hseed) as (_ & _ & (r & last & g' & E & _)).
    exists r, last, g'. eexists. split; [exact E|].
    split; [apply (caller_random_assignment _ _ _ _ _ _ _ _ _ _ HC0 E)|].
    cbn [written]. split; [apply sort_zyx_perm | apply sort_zyx_sorted].
Qed.

Lemma written_listing_sorted_witness :
  positive (2, 2, 1) /\ seed_ok (Some 42) /\
  exists r last g' rep,
    binary_to_3d_random_assignment (R := lcg_random) [x40; xff] (2, 2, 1)
      false 0 (Some 42) 0 = Ok (r, last, len [x40; xff], g') /\
    binary_to_3d (R := lcg_random) [x40; xff] (2, 2, 1) "random_assignment"
      false 0 (Some 42) 0 = Ok (rep, g') /\
    Permutation (written rep) r /\ zyx_sorted (written rep).
Proof.
  split; [cbn; lia|]. split; [cbn; lia|].
  apply (written_listing_sorted (R := lcg_random) [x40; xff] (2, 2, 1) false
           0 (Some 42) 0); cbn; lia.
Defined.

(** ** With fill-empty on, every mode writes the cells in the same order *)

(** The caller's sort key on coordinates alone. *)
Definition zyx_le (a b : coord) : Prop := key_le (a, 0) (b, 0) = true.

Lemma zyx_le_trans a b c : zyx_le a b -> zyx_le b c -> zyx_le a c.
Proof.
  destruct a as [[xa ya] za], b as [[xb yb] zb], c as [[xc yc] zc].
  unfold zyx_le, key_le.
  rewrite !orb_true_iff, !andb_true_iff, !orb_true_iff, !andb_true_iff,
    !Z.ltb_lt, !Z.eqb_eq, !Z.leb_le.
  lia.
Qed.

Lemma zyx_le_antisym a b : zyx_le a b -> zyx_le b a -> a = b.
Proof.
  destruct a as [[xa ya] za], b as [[xb yb] zb].
  unfold zyx_le, key_le.
  rewrite !orb_true_iff, !andb_true_iff, !orb_true_iff, !andb_true_iff,
    !Z.ltb_lt, !Z.eqb_eq, !Z.leb_le.
  intros H1 H2. assert (xa = xb /\ ya = yb /\ za = zb) as (-> & -> & ->) by lia.
  reflexivity.
Qed.

Lemma zyx_sorted_coords l : zyx_sorted l -> Sorted zyx_le (coords l).
Proof.
  unfold zyx_sorted. induction 1 as [|e l Hl IH Hhd]; cbn; constructor.
  - exact IH.
  - destruct Hhd as [|e' l' Hrel]; cbn; constructor.
    destruct e as [[[xa ya] za] ba], e' as [[[xb yb] zb] bb]. exact Hrel.
Qed.

Lemma sorted_permutation_unique (l1 l2 : list coord) :
  Sorted zyx_le l1 -> Sorted zyx_le l2 -> Permutation l1 l2 -> l1 = l2.
Proof.
  intros H1 H2.
  apply (Sorted_StronglySorted zyx_le_trans) in H1.
  apply (Sorted_StronglySorted zyx_le_trans) in H2.
  revert l2 H2. induction H1 as [|a l1 Hl1 IH Ha]; intros l2 H2 Hp.
  - apply Permutation_nil in Hp. now subst.
  - destruct H2 as [|b l2 Hl2 Hb].
    { symmetry in Hp. apply Permutation_nil in Hp. discriminate. }
    assert (Eab : a = b).
    { assert (Hin_a : In a (b :: l2))
        by (apply (Permutation_in _ Hp); now left).
      assert (Hin_b : In b (a :: l1))
        by (apply (Permutation_in _ (Permutation_sym Hp)); now left).
      destruct Hin_a as [<- | Hin_a]; [reflexivity|].
      destruct Hin_b as [<- | Hin_b]; [reflexivity|].
      rewrite Forall_forall in Ha, Hb.
      apply zyx_le_antisym; auto. }
    subst b. f_equal. apply IH; [assumption|].
    now apply Permutation_cons_inv in Hp.
Qed.

(** With fill-empty on, the written listing of every mode names the cells in
    one and the same order, whatever the input and the seed: line [i] is the
    cell [(i % max_x, (i // max_x) % max_y, i // (max_x * max_y))]. *)
Theorem written_cells_row_major {R : PyRandom} binary_data dims mode
    default_bit seed (g : rng) :
  positive dims -> seed_ok seed ->
  In mode ["sequential"; "random_positions"; "random_assignment"]%string ->
  exists rep g',
    binary_to_3d binary_data dims mode true default_bit seed g =
      Ok (rep, g') /\
    coords (written rep) =
    map (fun i => decode dims (Z.of_nat i))
      (seq 0 (Z.to_nat (capacity dims))).
Proof.
  intros Hpos Hseed Hmode.
  assert (Hrow : Permutation
                   (map (row_major dims) (seq 0 (Z.to_nat (capacity dims))))
                   (all_coordinates dims)).
  { apply cells_permutation.
    - intros i j _ _. now apply row_major_inj.
    - intros i Hi. now apply row_major_in_grid.
    - intros co Hco. now apply row_major_cover. }
  assert (Hrow_sorted : Sorted zyx_le
                          (map (row_major dims)
                             (seq 0 (Z.to_nat (capacity dims))))).
  { assert (E : coords (placed (row_major dims) 0
                            (repeat 0 (Z.to_nat (capacity dims)))) =
                 map (row_major dims) (seq 0 (Z.to_nat (capacity dims))))
      by (now rewrite coords_placed, repeat_length).
    rewrite <- E. apply zyx_sorted_coords, placed_sorted.
    intros i b b'. destruct dims as [[max_x max_y] max_z].
    destruct Hpos as (Hx & Hy & Hz). unfold row_major.
    replace (Z.of_nat (S i)) with (Z.of_nat i + 1) by lia.
    now apply key_le_row_major. }
  assert (Hgoal : forall rep r,
             Permutation (written rep) r -> zyx_sorted (written rep) ->
             Permutation (coords r) (all_coordinates dims) ->
             coords (written rep) =
             map (fun i => decode dims (Z.of_nat i))
               (seq 0 (Z.to_nat (capacity dims)))).
  { intros rep r Hperm Hsorted Hcover.
    apply sorted_permutation_unique.
    - now apply zyx_sorted_coords.
    - exact Hrow_sorted.
    - rewrite Hrow, <- Hcover. unfold coords. now apply Permutation_map. }
  destruct (written_listing_sorted binary_data dims true default_bit seed g
              Hpos Hseed)
    as ((r1 & l1 & rep1 & E1 & C1 & W1 & S1) &
        (r2 & l2 & g2 & rep2 & E2 & C2 & W2 & S2) &
        (r3 & l3 & g3 & rep3 & E3 & C3 & W3 & S3)).
  destruct (listings_cover_grid binary_data dims true default_bit seed g
              Hpos Hseed)
    as ((r1' & l1' & E1' & _ & P1) &
        (r2' & l2' & g2' & E2' & _ & P2) &
        (r3' & l3' & g3' & E3' & _ & P3)).
  rewrite E1 in E1'. rewrite E2 in E2'. rewrite E3 in E3'.
  injection E1' as <- _. injection E2' as <- _ _. injection E3' as <- _ _.
  destruct Hmode as [<- | [<- | [<- | []]]].
  - exists rep1, g. split; [exact C1|].
    apply (Hgoal rep1 r1); auto. now rewrite W1.
  - exists rep2, g2. split; [exact C2|]. apply (Hgoal rep2 r2); auto.
  - exists rep3, g3. split; [exact C3|]. apply (Hgoal rep3 r3); auto.
Qed.

Lemma written_cells_row_major_witness :
  positive (2, 2, 1) /\ seed_ok (Some 42) /\
  exists rep g',
    binary_to_3d (R := lcg_random) [x40] (2, 2, 1) "random_positions" true 0
      (Some 42) 0 = Ok (rep, g') /\
    coords (written rep) =
    map (fun i => decode (2, 2, 1) (Z.of_nat i))
      (seq 0 (Z.to_nat (capacity (2, 2, 1)))).
Proof.
  split; [cbn; lia|]. split; [cbn; lia|].
  apply (written_cells_row_major (R := lcg_random) [x40] (2, 2, 1)
           "random_positions" 0 (Some 42) 0); [cbn; lia | cbn; lia |].
  right. left. reflexivity.
Defined.

(** ** When the caller completes *)

(** With positive dimensions and a seed numpy accepts, the caller completes
    exactly for the three mode names; every other name ends in
    [sys.exit(1)] before any strategy runs. *)
Theorem caller_completes_iff_mode_known {R : PyRandom} binary_data dims mode
    fill_empty default_bit seed (g : rng) :
  positive dims -> seed_ok seed ->
  ((exists rep g',
       binary_to_3d binary_data dims mode fill_empty default_bit seed g =
       Ok (rep, g')) <->
   In mode ["sequential"; "random_positions"; "random_assignment"]%string)
  /\
  (~ In mode ["sequential"; "random_positions"; "random_assignment"]%string ->
   binary_to_3d binary_data dims mode fill_empty default_bit seed g =
   Raise SystemExit).
Proof.
  intros Hpos Hseed.
  assert (Hexit : ~ In mode ["sequential"; "random_positions";
                             "random_assignment"]%string ->
                  binary_to_3d binary_data dims mode fill_empty default_bit
                    seed g = Raise SystemExit).
  { intros Hmode. unfold binary_to_3d.
    destruct (String.eqb_spec mode "sequential") as [->|_].
    { exfalso. apply Hmode. now left. }
    destruct (String.eqb_spec mode "random_positions") as [->|_].
    { exfalso. apply Hmode. right. now left. }
    destruct (String.eqb_spec mode "random_assignment") as [->|_].
    { exfalso. apply Hmode. right. right. now left. }
    reflexivity. }
  split; [|exact Hexit]. split.
  - intros (rep & g' & E).
    destruct (in_dec string_dec mode
                ["sequential"; "random_positions"; "random_assignment"]%string)
      as [Hin|Hout]; [exact Hin|].
    rewrite (Hexit Hout) in E. discriminate.
  - intros Hin.
    destruct (written_listing_sorted binary_data dims fill_empty default_bit
                seed g Hpos Hseed)
      as ((r1 & l1 & rep1 & _ & C1 & _) &
          (r2 & l2 & g2 & rep2 & _ & C2 & _) &
          (r3 & l3 & g3 & rep3 & _ & C3 & _)).
    destruct Hin as [<- | [<- | [<- | []]]]; eauto.
Qed.

Lemma caller_completes_iff_mode_known_witness :
  positive (2, 2, 2) /\ seed_ok None /\
  ~ In "spiral"%string
      ["sequential"; "random_positions"; "random_assignment"]%string /\
  binary_to_3d (R := lcg_random) [xb0] (2, 2, 2) "spiral" true 0 None 0 =
  Raise SystemExit.
Proof.
  assert (Hout : ~ In "spiral"%string
                     ["sequential"; "random_positions";
                      "random_assignment"]%string).
  { intros [H | [H | [H | []]]]; discriminate H. }
  split; [cbn; lia|]. split; [exact I|]. split; [exact Hout|].
  apply (caller_completes_iff_mode_known (R := lcg_random) [xb0] (2, 2, 2)
           "spiral" true 0 None 0 ltac:(cbn; lia) I).
  exact Hout.
Defined.

(** A grid without cells: whenever Capacity is zero the caller ends in an
    exception, for every mode name, input, fill policy and seed; at the
    latest its summary divides by the number of positions. *)
Theorem zero_capacity_never_completes {R : PyRandom} binary_data dims mode
    fill_empty default_bit seed (g : rng) :
  capacity dims = 0 ->
  exists e,
    binary_to_3d binary_data dims mode fill_empty default_bit seed g =
    Raise e.
Proof.
  intros HC. unfold binary_to_3d. rewrite HC. unfold bindM at 1.
  match goal with
  | |- context [match ?m g with _ => _ end] => destruct (m g) as [[[[r l] t] g']|e]
  end.
  - eexists. reflexivity.
  - now exists e.
Qed.

Lemma zero_capacity_never_completes_witness :
  capacity (0, 4, 4) = 0 /\
  exists e,
    binary_to_3d (R := lcg_random) [] (0, 4, 4) "random_positions" true 0
      None 0 = Raise e.
Proof.
  split; [reflexivity|].
  apply (zero_capacity_never_completes (R := lcg_random) [] (0, 4, 4)
           "random_positions" true 0 None 0).
  reflexivity.
Defined.

(** ** The draws of the randomized assignment *)

(** The stores [result_dict[(x, y, z)] = bit], one after the other. *)
Definition store_all (d : dict) (stores : list (coord * Z)) : dict :=
  fold_left (fun d p => dict_set d (fst p) (snd p)) stores d.

Section Draws.

Context {R : PyRandom}.

(** The coordinates of [n] successive iterations of the draw loop: three
    calls of [random.randint] each, for [x], [y] and [z] in this order. *)
Fixpoint draw_cells (dims : dimensions) (n : nat) (g : rng)
  : list coord * rng :=
  match n with
  | O => ([], g)
  | S n' =>
      let '(max_x, max_y, max_z) := dims in
      let (x, g1) := draw 0 (max_x - 1) g in
      let (y, g2) := draw 0 (max_y - 1) g1 in
      let (z, g3) := draw 0 (max_z - 1) g2 in
      let (cells, g') := draw_cells dims n' g3 in
      ((x, y, z) :: cells, g')
  end.

Lemma length_draw_cells dims n g : length (fst (draw_cells dims n g)) = n.
Proof.
  revert g. induction n as [|n IH]; intros g; [reflexivity|].
  destruct dims as [[max_x max_y] max_z]. cbn [draw_cells].
  destruct (draw 0 (max_x - 1) g) as [x g1].
  destruct (draw 0 (max_y - 1) g1) as [y g2].
  destruct (draw 0 (max_z - 1) g2) as [z g3].
  specialize (IH g3).
  destruct (draw_cells (max_x, max_y, max_z) n g3) as [cells g'].
  cbn in *. now rewrite IH.
Qed.

Lemma draw_cells_app dims a b g :
  draw_cells dims (a + b) g =
  (fst (draw_cells dims a g) ++
   fst (draw_cells dims b (snd (draw_cells dims a g))),
   snd (draw_cells dims b (snd (draw_cells dims a g)))).
Proof.
  revert g. induction a as [|a IH]; intros g.
  - cbn. now destruct (draw_cells dims b g).
  - destruct dims as [[max_x max_y] max_z]. cbn [draw_cells Nat.add].
    destruct (draw 0 (max_x - 1) g) as [x g1].
    destruct (draw 0 (max_y - 1) g1) as [y g2].
    destruct (draw 0 (max_z - 1) g2) as [z g3].
    rewrite (IH g3).
    destruct (draw_cells (max_x, max_y, max_z) a g3) as [cells g'].
    reflexivity.
Qed.

Lemma draw_cells_in_grid dims n g :
  positive dims -> Forall (in_grid dims) (fst (draw_cells dims n g)).
Proof.
  destruct dims as [[max_x max_y] max_z]. intros (Hx & Hy & Hz).
  revert g. induction n as [|n IH]; intros g; [constructor|].
  cbn [draw_cells].
  pose proof (draw_range 0 (max_x - 1) g ltac:(lia)) as Hxr.
  destruct (draw 0 (max_x - 1) g) as [x g1].
  pose proof (draw_range 0 (max_y - 1) g1 ltac:(lia)) as Hyr.
  destruct (draw 0 (max_y - 1) g1) as [y g2].
  pose proof (draw_range 0 (max_z - 1) g2 ltac:(lia)) as Hzr.
  destruct (draw 0 (max_z - 1) g2) as [z g3].
  specialize (IH g3).
  destruct (draw_cells (max_x, max_y, max_z) n g3) as [cells g'].
  cbn [fst] in *. constructor; [cbn; lia | exact IH].
Qed.

End Draws.

Lemma store_all_app d l1 l2 :
  store_all d (l1 ++ l2) = store_all (store_all d l1) l2.
Proof. apply fold_left_app. Qed.

Lemma combine_app_same {A B} (l1 l2 : list A) (m1 m2 : list B) :
  length l1 = length m1 ->
  combine (l1 ++ l2) (m1 ++ m2) = combine l1 m1 ++ combine l2 m2.
Proof.
  revert m1. induction l1 as [|a l1 IH]; intros [|b m1] E; cbn in *;
    try discriminate.
  - reflexivity.
  - injection E as E. now rewrite IH.
Qed.

Lemma combine_app_short {A B} (l : list A) (m1 m2 : list B) :
  (length l <= length m1)%nat -> combine l (m1 ++ m2) = combine l m1.
Proof.
  revert m1. induction l as [|a l IH]; intros [|b m1] Hl; cbn in *;
    try reflexivity; try lia.
  rewrite IH by lia. reflexivity.
Qed.

Lemma dict_get_set_other d k v k' default :
  k' <> k -> dict_get (dict_set d k v) k' default = dict_get d k' default.
Proof.
  intros Hne. induction d as [|[k0 v0] d IH]; cbn.
  - rewrite coord_eqb_neq by congruence. reflexivity.
  - destruct (coord_eqb k0 k) eqn:E; cbn.
    + apply coord_eqb_eq in E. subst k0.
      rewrite coord_eqb_neq by congruence. reflexivity.
    + destruct (coord_eqb k0 k'); [reflexivity | exact IH].
Qed.

Lemma dict_get_store_untouched stores :
  forall d k default,
    ~ In k (map fst stores) ->
    dict_get (store_all d stores) k default = dict_get d k default.
Proof.
  induction stores as [|[k0 v0] stores IH]; intros d k default Hk;
    [reflexivity|].
  cbn in *. unfold store_all in IH. rewrite IH by tauto.
  apply dict_get_set_other. intros ->. tauto.
Qed.

Lemma store_all_keys stores :
  forall d k,
    In k (map fst (store_all d stores)) <->
    In k (map fst d) \/ In k (map fst stores).
Proof.
  induction stores as [|[k0 v0] stores IH]; intros d k; cbn.
  - tauto.
  - unfold store_all in IH. rewrite IH, in_dict_set. cbn. intuition congruence.
Qed.

(** After the stores, a coordinate holds the bit stored to it last. *)
Lemma store_all_last_wins d before k v after :
  ~ In k (map fst after) ->
  In (k, v) (store_all d (before ++ (k, v) :: after)).
Proof.
  intros Hlast. set (final := store_all d (before ++ (k, v) :: after)).
  assert (Hget : dict_get final k (v + 1) = v).
  { unfold final. rewrite store_all_app. cbn [store_all fold_left fst snd].
    fold (store_all (dict_set (store_all d before) k v) after).
    rewrite dict_get_store_untouched by assumption. apply dict_get_set. }
  destruct (dict_get_cases final k (v + 1)) as [Hin | [_ Hdef]].
  - now rewrite Hget in Hin.
  - rewrite Hget in Hdef. lia.
Qed.

Section DrawLoops.

Context {R : PyRandom}.
Variables max_x max_y max_z : Z.
Hypothesis Hx : 0 < max_x.
Hypothesis Hy : 0 < max_y.
Hypothesis Hz : 0 < max_z.

Lemma randint_draw b g : 0 <= b -> randint 0 b g = Ok (draw 0 b g).
Proof.
  intros Hb. unfold randint. destruct (Z.ltb_spec b 0); [lia | reflexivity].
Qed.

Lemma assignment_bits_draws byte bit_idxs :
  forall d (n : nat) g,
    Z.of_nat n < capacity (max_x, max_y, max_z) ->
    assignment_bits (max_x, max_y, max_z) (capacity (max_x, max_y, max_z))
      byte bit_idxs (d, Z.of_nat n) g =
    Ok (store_all d
          (combine
             (fst (draw_cells (max_x, max_y, max_z)
                     (Nat.min (length bit_idxs)
                        (Z.to_nat (capacity (max_x, max_y, max_z)) - n)) g))
             (map (bit_of byte) bit_idxs)),
        Z.of_nat (n + Nat.min (length bit_idxs)
                         (Z.to_nat (capacity (max_x, max_y, max_z)) - n)),
        snd (draw_cells (max_x, max_y, max_z)
               (Nat.min (length bit_idxs)
                  (Z.to_nat (capacity (max_x, max_y, max_z)) - n)) g)).
Proof.
  set (dims := (max_x, max_y, max_z)). set (C := capacity dims).
  induction bit_idxs as [|bit_idx rest IH]; intros d n g Hn.
  - cbn. now rewrite Nat.add_0_r.
  - cbn [assignment_bits length map]. unfold dims at 1. cbv beta iota.
    unfold bindM.
    rewrite (randint_draw (max_x - 1) g) by lia.
    destruct (draw 0 (max_x - 1) g) as [x g1] eqn:E1.
    rewrite (randint_draw (max_y - 1) g1) by lia.
    destruct (draw 0 (max_y - 1) g1) as [y g2] eqn:E2.
    rewrite (randint_draw (max_z - 1) g2) by lia.
    destruct (draw 0 (max_z - 1) g2) as [z g3] eqn:E3.
    destruct (Z.leb_spec C (Z.of_nat n + 1)) as [Hfull|Hroom].
    + replace (Nat.min (S (length rest)) (Z.to_nat C - n)) with 1%nat by lia.
      unfold dims. cbn [draw_cells]. rewrite E1, E2, E3.
      cbn [fst snd combine store_all fold_left]. unfold retM.
      do 3 f_equal. lia.
    + replace (Z.of_nat n + 1) with (Z.of_nat (S n)) by lia.
      rewrite IH by lia.
      replace (Nat.min (S (length rest)) (Z.to_nat C - n))
        with (S (Nat.min (length rest) (Z.to_nat C - S n))) by lia.
      set (m := Nat.min (length rest) (Z.to_nat C - S n)).
      assert (Es : draw_cells dims (S m) g =
                   ((x, y, z) :: fst (draw_cells dims m g3),
                    snd (draw_cells dims m g3))).
      { unfold dims. cbn [draw_cells]. rewrite E1, E2, E3.
        now destruct (draw_cells (max_x, max_y, max_z) m g3). }
      rewrite Es. cbn [fst snd combine store_all fold_left].
      do 3 f_equal. lia.
Qed.

Lemma assignment_bytes_draws bytes :
  forall d (n : nat) g,
    Z.of_nat n < capacity (max_x, max_y, max_z) ->
    assignment_bytes (max_x, max_y, max_z) (capacity (max_x, max_y, max_z))
      bytes (d, Z.of_nat n) g =
    Ok (store_all d
          (combine
             (fst (draw_cells (max_x, max_y, max_z)
                     (Nat.min (8 * length bytes)
                        (Z.to_nat (capacity (max_x, max_y, max_z)) - n)) g))
             (stream bytes)),
        Z.of_nat (n + Nat.min (8 * length bytes)
                         (Z.to_nat (capacity (max_x, max_y, max_z)) - n)),
        snd (draw_cells (max_x, max_y, max_z)
               (Nat.min (8 * length bytes)
                  (Z.to_nat (capacity (max_x, max_y, max_z)) - n)) g)).
Proof.
  set (dims := (max_x, max_y, max_z)). set (C := capacity dims).
  induction bytes as [|b rest IH]; intros d n g Hn.
  - cbn. now rewrite Nat.add_0_r.
  - cbn [assignment_bytes]. unfold bindM.
    unfold dims at 1, C at 1. rewrite assignment_bits_draws by assumption.
    fold dims. fold C. rewrite stream_cons.
    set (bits := map (bit_of (byte_val b)) (py_range 8)).
    assert (Hbits : length bits = 8%nat) by apply length_byte_bits.
    rewrite range_8. cbn [length snd].
    destruct (Z.leb_spec C (Z.of_nat (n + Nat.min 8 (Z.to_nat C - n))))
      as [Hfull|Hroom].
    + replace (Nat.min (8 * S (length rest)) (Z.to_nat C - n))
        with (Nat.min 8 (Z.to_nat C - n)) by lia.
      rewrite combine_app_short; [reflexivity|].
      rewrite length_draw_cells, Hbits. lia.
    + replace (Nat.min 8 (Z.to_nat C - n)) with 8%nat by lia.
      rewrite IH by lia.
      replace (Nat.min (8 * S (length rest)) (Z.to_nat C - n))
        with (8 + Nat.min (8 * length rest) (Z.to_nat C - (n + 8)))%nat
        by lia.
      set (m := Nat.min (8 * length rest) (Z.to_nat C - (n + 8))).
      rewrite (draw_cells_app dims 8 m g). cbn [fst snd].
      rewrite combine_app_same by (now rewrite length_draw_cells, Hbits).
      rewrite store_all_app. do 3 f_equal. lia.
Qed.

End DrawLoops.

Lemma in_dict_set_entry d k0 v0 k v :
  In (k, v) (dict_set d k0 v0) -> (k, v) = (k0, v0) \/ In (k, v) d.
Proof.
  induction d as [|[k1 v1] d IH]; cbn.
  - intros [E | []]. left. now symmetry.
  - destruct (coord_eqb k1 k0) eqn:E; cbn.
    + apply coord_eqb_eq in E. subst k1.
      intros [H | H]; [left; now symmetry | right; now right].
    + intros [H | H]; [right; now left|].
      destruct (IH H); [now left | right; now right].
Qed.

Lemma store_all_from stores :
  forall d k v,
    In (k, v) (store_all d stores) -> In (k, v) d \/ In (k, v) stores.
Proof.
  induction stores as [|[k0 v0] stores IH]; intros d k v; cbn;
    [now left|].
  intros H. apply IH in H as [H | H]; [|right; now right].
  apply in_dict_set_entry in H as [H | H]; [right; left; now symmetry|].
  now left.
Qed.

(** The stores of one run, in the order they are made: the cell drawn for
    each of the first [min(8 * len, Capacity)] input bits, with that bit. *)
Definition assignment_stores {R : PyRandom} (binary_data : list byte)
    (dims : dimensions) (seed : option Z) (g : rng) : list (coord * Z) :=
  combine
    (fst (draw_cells dims
            (Nat.min (8 * length binary_data) (Z.to_nat (capacity dims)))
            (reseed seed g)))
    (stream binary_data).

(** Randomized assignment draws a cell for each of the first
    [min(8 * len, Capacity)] input bits and no more; in the listing, with or
    without fill-empty, a cell that was drawn holds the bit of the last draw
    that landed on it, and without fill-empty every entry stems from a
    draw. *)
Theorem random_assignment_last_draw_wins {R : PyRandom} binary_data dims
    default_bit seed (g : rng) :
  positive dims -> seed_ok seed ->
  exists sparse full g',
    binary_to_3d_random_assignment binary_data dims false default_bit seed g
      = Ok (sparse, len binary_data - 1, len binary_data, g') /\
    binary_to_3d_random_assignment binary_data dims true default_bit seed g
      = Ok (full, len binary_data - 1, len binary_data, g') /\
    len (assignment_stores binary_data dims seed g) =
      Z.min (8 * len binary_data) (capacity dims) /\
    (forall before c b after,
        assignment_stores binary_data dims seed g =
          before ++ (c, b) :: after ->
        ~ In c (map fst after) ->
        In (c, b) sparse /\ In (c, b) full) /\
    (forall c b,
        In (c, b) sparse ->
        In (c, b) (assignment_stores binary_data dims seed g)).
Proof.
  intros Hpos Hseed. destruct dims as [[max_x max_y] max_z].
  pose proof Hpos as (Hx & Hy & Hz).
  pose proof (capacity_pos max_x max_y max_z Hx Hy Hz) as HC.
  set (dims := (max_x, max_y, max_z)) in *.
  destruct (random_assignment_spec max_x max_y max_z Hx Hy Hz binary_data
              seed g Hseed) as (d & g' & Hd & E).
  fold dims in E, Hd.
  assert (Ed : d = store_all [] (assignment_stores binary_data dims seed g)).
  { specialize (E false default_bit).
    unfold binary_to_3d_random_assignment in E.
    rewrite (bindM_ok _ _ _ _ _ (set_seed_ok _ _ Hseed)) in E.
    pose proof (assignment_bytes_draws max_x max_y max_z Hx Hy Hz
                  binary_data [] 0%nat (reseed seed g) HC) as B.
    change (Z.of_nat 0) with 0 in B. fold dims in B.
    rewrite Nat.sub_0_r in B.
    unfold bindM in E. unfold dict in *. rewrite B in E.
    unfold retM, dict_items, assignment_listing in E.
    injection E as E _. rewrite <- E.
    unfold assignment_stores.
    erewrite map_ext; [apply map_id|]. now intros [[[x y] z] bit]. }
  exists (assignment_listing dims d false default_bit),
         (assignment_listing dims d true default_bit), g'.
  split; [apply E|]. split; [apply E|].
  destruct (assignment_listing_bounded dims d default_bit Hpos Hd)
    as (_ & _ & _ & _ & Hincl & _).
  split; [|split].
  - unfold assignment_stores, len.
    rewrite length_combine, length_draw_cells, length_stream. lia.
  - intros before c b after Hsplit Hlast.
    assert (Hin : In (c, b) (assignment_listing dims d false default_bit)).
    { unfold assignment_listing. rewrite Ed, Hsplit.
      now apply store_all_last_wins. }
    split; [exact Hin | now apply Hincl].
  - intros c b Hin. unfold assignment_listing in Hin. rewrite Ed in Hin.
    apply store_all_from in Hin as [[] | Hin]. exact Hin.
Qed.

Lemma random_assignment_last_draw_wins_witness :
  positive (2, 1, 1) /\ seed_ok (Some 42) /\
  exists sparse full g',
    binary_to_3d_random_assignment (R := lcg_random) [x40; xff] (2, 1, 1)
      false 0 (Some 42) 0 = Ok (sparse, len [x40; xff] - 1, len [x40; xff], g')
    /\
    binary_to_3d_random_assignment (R := lcg_random) [x40; xff] (2, 1, 1)
      true 0 (Some 42) 0 = Ok (full, len [x40; xff] - 1, len [x40; xff], g')
    /\
    len (assignment_stores (R := lcg_random) [x40; xff] (2, 1, 1) (Some 42) 0)
    = Z.min (8 * len [x40; xff]) (capacity (2, 1, 1)).
Proof.
  split; [cbn; lia|]. split; [cbn; lia|].
  destruct (random_assignment_last_draw_wins (R := lcg_random) [x40; xff]
              (2, 1, 1) 0 (Some 42) 0 ltac:(cbn; lia) ltac:(cbn; lia))
    as (sparse & full & g' & E1 & E2 & Hlen & _).
  now exists sparse, full, g'.
Defined.

(** ** The two truncating strategies side by side *)

Lemma bits_placed f start bits : map snd (placed f start bits) = bits.
Proof.
  revert start. induction bits as [|b bits IH]; intros start; cbn;
    [reflexivity|].
  now rewrite IH.
Qed.

(** Randomized-position placement lists the same bits in the same order as
    sequential placement, entry for entry; only the coordinates they are
    attached to differ. *)
Theorem random_positions_same_bits {R : PyRandom} binary_data dims fill_empty
    default_bit seed (g : rng) :
  positive dims -> seed_ok seed ->
  exists r_seq last_seq r_pos last_pos g',
    binary_to_3d_sequential binary_data dims fill_empty default_bit =
      Ok (r_seq, last_seq, len binary_data) /\
    binary_to_3d_random_positions binary_data dims fill_empty default_bit
      seed g = Ok (r_pos, last_pos, len binary_data, g') /\
    map snd r_pos = map snd r_seq.
Proof.
  intros Hpos Hseed.
  rewrite (random_positions_spec _ _ _ _ _ _ Hseed).
  pose proof (shuffled_len dims (reseed seed g) Hpos) as Hlen.
  destruct dims as [[max_x max_y] max_z].
  pose proof Hpos as (Hx & Hy & Hz).
  pose proof (capacity_pos max_x max_y max_z Hx Hy Hz) as HC.
  rewrite (sequential_spec max_x max_y max_z Hx Hy Hz).
  eexists _, _, _, _, _. split; [reflexivity|]. split; [reflexivity|].
  rewrite !layout_as_placed, !bits_placed.
  unfold len in Hlen. do 2 f_equal; try lia.
  destruct fill_empty; [f_equal; lia | reflexivity].
Qed.

Lemma random_positions_same_bits_witness :
  positive (2, 2, 2) /\ seed_ok (Some 7) /\
  exists r_seq last_seq r_pos last_pos g',
    binary_to_3d_sequential [xb0] (2, 2, 2) true 0 =
      Ok (r_seq, last_seq, len [xb0]) /\
    binary_to_3d_random_positions (R := lcg_random) [xb0] (2, 2, 2) true 0
      (Some 7) 0 = Ok (r_pos, last_pos, len [xb0], g') /\
    map snd r_pos = map snd r_seq.
Proof.
  split; [cbn; lia|]. split; [cbn; lia|].
  apply (random_positions_same_bits (R := lcg_random) [xb0] (2, 2, 2) true 0
           (Some 7) 0); cbn; lia.
Defined.

(** The byte index each strategy reports once the grid is full before the
    input ends: sequential placement the byte holding the last bit placed,
    [(Capacity - 1) // 8]; randomized-position placement the byte holding
    the first bit not placed, [Capacity // 8]; randomized assignment always
    the last byte of the input. *)
Theorem truncated_last_byte_index {R : PyRandom} binary_data dims fill_empty
    default_bit seed (g : rng) :
  positive dims -> seed_ok seed ->
  capacity dims < 8 * len binary_data ->
  (exists r,
      binary_to_3d_sequential binary_data dims fill_empty default_bit =
      Ok (r, (capacity dims - 1) / 8, len binary_data)) /\
  (exists r g',
      binary_to_3d_random_positions binary_data dims fill_empty default_bit
        seed g = Ok (r, capacity dims / 8, len binary_data, g')) /\
  (exists r g',
      binary_to_3d_random_assignment binary_data dims fill_empty default_bit
        seed g = Ok (r, len binary_data - 1, len binary_data, g')).
Proof.
  intros Hpos Hseed Hmore. split; [|split].
  - destruct dims as [[max_x max_y] max_z].
    pose proof Hpos as (Hx & Hy & Hz).
    rewrite (sequential_spec max_x max_y max_z Hx Hy Hz).
    unfold sequential_last.
    destruct (Z.ltb_spec (8 * len binary_data)
                (capacity (max_x, max_y, max_z))); [lia|].
    now eexists.
  - rewrite (random_positions_spec _ _ _ _ _ _ Hseed).
    rewrite (shuffled_len dims (reseed seed g) Hpos). unfold positions_last.
    destruct (Z.leb_spec (8 * len binary_data) (capacity dims)); [lia|].
    now eexists _, _.
  - destruct dims as [[max_x max_y] max_z].
    pose proof Hpos as (Hx & Hy & Hz).
    destruct (random_assignment_spec max_x max_y max_z Hx Hy Hz binary_data
                seed g Hseed) as (d & g' & _ & E).
    rewrite E. now eexists _, _.
Qed.

Lemma truncated_last_byte_index_witness :
  positive (2, 2, 2) /\ seed_ok None /\
  capacity (2, 2, 2) < 8 * len [xb0; x0f; x01] /\
  (exists r,
      binary_to_3d_sequential [xb0; x0f; x01] (2, 2, 2) false 0 =
      Ok (r, (capacity (2, 2, 2) - 1) / 8, len [xb0; x0f; x01])) /\
  (exists r g',
      binary_to_3d_random_positions (R := lcg_random) [xb0; x0f; x01]
        (2, 2, 2) false 0 None 0 =
      Ok (r, capacity (2, 2, 2) / 8, len [xb0; x0f; x01], g')).
Proof.
  split; [cbn; lia|]. split; [exact I|]. split; [cbn; lia|].
  destruct (truncated_last_byte_index (R := lcg_random) [xb0; x0f; x01]
              (2, 2, 2) false 0 None 0 ltac:(cbn; lia) I ltac:(cbn; lia))
    as (H1 & H2 & _).
  now split.
Defined.

(** * The sample generator ([generate_sample.py]) *)

(** [random.getrandbits(k)] on the same process-wide generator: a
    non-negative integer below [2**k]. *)
Class PyRandomBits (R : PyRandom) : Type := {
  bits_draw : Z -> rng -> Z * rng;
  bits_draw_range : forall k g, 0 <= k -> 0 <= fst (bits_draw k g) < 2 ^ k
}.

Module LcgBits.

Definition bits_draw (k g : Z) : Z * Z :=
  let g' := Lcg.next g in (g' mod 2 ^ k, g').

Lemma bits_draw_range k g : 0 <= k -> 0 <= fst (bits_draw k g) < 2 ^ k.
Proof.
  intros Hk. unfold bits_draw. cbn [fst].
  apply Z.mod_pos_bound. apply Z.pow_pos_nonneg; lia.
Qed.

End LcgBits.

#[export] Instance lcg_random_bits : PyRandomBits lcg_random := {|
  bits_draw := LcgBits.bits_draw;
  bits_draw_range := LcgBits.bits_draw_range
|}.

(** [bytearray(...)] and [bytearray.append]: each value must be in
    [range(256)]. *)
Definition to_byte (v : Z) : res byte :=
  if (v <? 0) || (255 <? v) then Raise ValueError
  else match Byte.of_N (Z.to_N v) with
       | Some b => Ok b
       | None => Raise ValueError
       end.

Fixpoint bytearray (vals : list Z) : res (list byte) :=
  match vals with
  | [] => Ok []
  | v :: rest =>
      b <- to_byte v ;;
      bs <- bytearray rest ;;
      Ok (b :: bs)
  end.

(** [[v] * n]: empty for a negative count. *)
Definition py_repeat {A} (v : A) (n : Z) : list A := repeat v (Z.to_nat n).

(** [range(0, n, 8)] *)
Definition py_range_step8 (n : Z) : list Z :=
  map (fun k => 8 * Z.of_nat k) (seq 0 (Z.to_nat ((n + 7) / 8))).

Section Generator.

Context {R : PyRandom} {RB : PyRandomBits R}.

Notation "x <~ m ;; k" := (bindM m (fun x => k))
  (at level 61, m at next level, right associativity) : py_scope.

Definition getrandbits (k : Z) : M Z :=
  fun g => if k <? 0 then Raise ValueError else Ok (bits_draw k g).

(** [random.getrandbits(8) for _ in range(size_bytes)] *)
Fixpoint random_values (idxs : list Z) : M (list Z) :=
  match idxs with
  | [] => retM []
  | _ :: rest =>
      v <~ getrandbits 8 ;;
      vs <~ random_values rest ;;
      retM (v :: vs)
  end.

(** [generate_random_binary_file]: the bytes it writes.  Only
    [random.seed] is called here, not numpy's. *)
Definition generate_random_binary_file (size_bytes : Z) (seed : option Z)
  : M (list byte) :=
  _ <~ (fun g => match seed with
                 | None => Ok (tt, g)
                 | Some s => Ok (tt, seeded s)
                 end) ;;
  vals <~ random_values (py_range size_bytes) ;;
  liftM (bytearray vals).

(** The loop of the pattern ["random_patterns"] (lines 71-84). *)
Fixpoint random_patterns (idxs : list Z) (pattern_bytes : list byte)
  : M (list byte) :=
  match idxs with
  | [] => retM pattern_bytes
  | i :: rest =>
      v <~ (if i mod 4 =? 0 then getrandbits 8
            else if i mod 4 =? 1 then retM (if i mod 8 <? 4 then 0 else 255)
            else if i mod 4 =? 2 then retM (if i mod 8 <? 4 then 170 else 85)
            else retM (i mod 256)) ;;
      b <~ liftM (to_byte v) ;;
      random_patterns rest (pattern_bytes ++ [b])
  end.

(** [generate_pattern_binary_file]: the bytes it writes, or [None] when it
    prints "Unknown pattern type" and returns without writing. *)
Definition generate_pattern_binary_file (pattern_type : string)
    (size_bytes : Z) : M (option (list byte)) :=
  if String.eqb pattern_type "checkerboard" then
    bs <~ liftM (bytearray (py_repeat 170 size_bytes)) ;; retM (Some bs)
  else if String.eqb pattern_type "gradient" then
    bs <~ liftM (bytearray (map (fun i => i mod 256) (py_range size_bytes))) ;;
    retM (Some bs)
  else if String.eqb pattern_type "zeros" then
    bs <~ liftM (bytearray (py_repeat 0 size_bytes)) ;; retM (Some bs)
  else if String.eqb pattern_type "ones" then
    bs <~ liftM (bytearray (py_repeat 255 size_bytes)) ;; retM (Some bs)
  else if String.eqb pattern_type "random_patterns" then
    bs <~ random_patterns (py_range size_bytes) [] ;; retM (Some bs)
  else retM None.

End Generator.

(** The inner loop of [generate_custom_distribution_file] (lines 115-117):
    [if bits[i + j]: byte |= (1 << (7 - j))]. *)
Fixpoint pack_bits (bits : list Z) (i : Z) (js : list Z) (byte : Z)
  : res Z :=
  match js with
  | [] => Ok byte
  | j :: rest =>
      v <- getitem bits (i + j) ;;
      let byte := if v =? 0 then byte else Z.lor byte (Z.shiftl 1 (7 - j)) in
      pack_bits bits i rest byte
  end.

(** The outer loop [for i in range(0, len(bits), 8)] (lines 113-118). *)
Fixpoint pack_bytes (bits : list Z) (offsets : list Z)
    (bytes_data : list byte) : res (list byte) :=
  match offsets with
  | [] => Ok bytes_data
  | i :: rest =>
      byte <- pack_bits bits i (py_range (Z.min 8 (len bits - i))) 0 ;;
      b <- to_byte byte ;;
      pack_bytes bits rest (bytes_data ++ [b])
  end.

(** [generate_custom_distribution_file] from the array [bits] that
    [np.random.choice] returned on: the bytes it writes. *)
Definition custom_distribution_bytes (bits : list Z) : res (list byte) :=
  pack_bytes bits (py_range_step8 (len bits)) [].

(** ** Bytes the generators write *)

Lemma to_byte_ok v :
  0 <= v <= 255 -> exists b, to_byte v = Ok b /\ byte_val b = v.
Proof.
  intros Hv. unfold to_byte.
  destruct (Z.ltb_spec v 0); [lia|]. destruct (Z.ltb_spec 255 v); [lia|].
  cbn [orb]. destruct (Byte.of_N (Z.to_N v)) as [b|] eqn:E.
  - exists b. split; [reflexivity|]. apply Byte.to_of_N in E.
    unfold byte_val. rewrite E. lia.
  - apply Byte.of_N_None_iff in E. lia.
Qed.

Lemma bytearray_ok vals :
  Forall (fun v => 0 <= v <= 255) vals ->
  exists bs, bytearray vals = Ok bs /\ map byte_val bs = vals.
Proof.
  induction 1 as [|v vals Hv _ (bs & E & Hbs)]; cbn.
  - now exists [].
  - destruct (to_byte_ok v Hv) as (b & -> & Hb). cbn [res_bind].
    rewrite E. cbn [res_bind]. exists (b :: bs). cbn. now rewrite Hb, Hbs.
Qed.

Lemma bytearray_len vals bs : bytearray vals = Ok bs -> len bs = len vals.
Proof.
  revert bs. induction vals as [|v vals IH]; intros bs; cbn.
  - now intros [= <-].
  - destruct (to_byte v) as [b|e]; cbn [res_bind]; [|discriminate].
    destruct (bytearray vals) as [bs'|e]; cbn [res_bind]; [|discriminate].
    intros [= <-]. specialize (IH bs' eq_refl). unfold len in *.
    cbn [length]. lia.
Qed.

Lemma len_py_range n : len (py_range n) = Z.max 0 n.
Proof. unfold len. rewrite length_py_range. lia. Qed.

Section GeneratorFacts.

Context {R : PyRandom} {RB : PyRandomBits R}.

Lemma getrandbits_byte g :
  exists v g', getrandbits 8 g = Ok (v, g') /\ 0 <= v <= 255.
Proof.
  unfold getrandbits. cbn [Z.ltb Z.compare].
  pose proof (bits_draw_range 8 g ltac:(lia)) as Hr.
  destruct (bits_draw 8 g) as [v g']. cbn [fst] in Hr.
  exists v, g'. split; [reflexivity|]. change (2 ^ 8) with 256 in Hr. lia.
Qed.

Lemma random_values_ok idxs :
  forall g,
    exists vs g',
      random_values idxs g = Ok (vs, g') /\
      length vs = length idxs /\ Forall (fun v => 0 <= v <= 255) vs.
Proof.
  induction idxs as [|i idxs IH]; intros g; cbn [random_values].
  - exists [], g. repeat split. constructor.
  - destruct (getrandbits_byte g) as (v & g1 & E & Hv).
    destruct (IH g1) as (vs & g2 & E2 & Hlen & Hvs).
    exists (v :: vs), g2. unfold bindM. rewrite E, E2. unfold retM.
    repeat split; [cbn; lia | now constructor].
Qed.

Lemma random_patterns_ok idxs :
  forall pattern_bytes g,
    exists bs g',
      random_patterns idxs pattern_bytes g = Ok (pattern_bytes ++ bs, g') /\
      length bs = length idxs.
Proof.
  induction idxs as [|i idxs IH]; intros pattern_bytes g;
    cbn [random_patterns].
  - exists [], g. now rewrite app_nil_r.
  - assert (Hv : exists v g1,
               (if i mod 4 =? 0 then getrandbits 8
                else if i mod 4 =? 1
                     then retM (if i mod 8 <? 4 then 0 else 255)
                else if i mod 4 =? 2
                     then retM (if i mod 8 <? 4 then 170 else 85)
                else retM (i mod 256)) g = Ok (v, g1) /\ 0 <= v <= 255).
    { destruct (i mod 4 =? 0); [apply getrandbits_byte|].
      destruct (i mod 4 =? 1).
      { eexists _, _. split; [reflexivity|].
        destruct (i mod 8 <? 4); lia. }
      destruct (i mod 4 =? 2).
      { eexists _, _. split; [reflexivity|].
        destruct (i mod 8 <? 4); lia. }
      eexists _, _. split; [reflexivity|].
      pose proof (Z.mod_pos_bound i 256 ltac:(lia)). lia. }
    destruct Hv as (v & g1 & E & Hv).
    destruct (to_byte_ok v Hv) as (b & Eb & _).
    destruct (IH (pattern_bytes ++ [b]) g1) as (bs & g2 & E2 & Hlen).
    exists (b :: bs), g2. unfold bindM at 1. rewrite E.
    unfold bindM at 1. unfold liftM. rewrite Eb. rewrite E2.
    rewrite <- app_assoc. split; [reflexivity | cbn; lia].
Qed.

(** Every generator writes exactly [size_bytes] bytes, none for a negative
    size, and never raises: the random file for every seed, and the pattern
    file for each of its five pattern names; for any other name the pattern
    generator writes nothing at all. *)
Theorem generators_write_size_bytes size_bytes seed pattern_type (g : rng) :
  (exists bs g',
      generate_random_binary_file size_bytes seed g = Ok (bs, g') /\
      len bs = Z.max 0 size_bytes) /\
  (In pattern_type ["checkerboard"; "gradient"; "zeros"; "ones";
                    "random_patterns"]%string ->
   exists bs g',
     generate_pattern_binary_file pattern_type size_bytes g =
       Ok (Some bs, g') /\
     len bs = Z.max 0 size_bytes) /\
  (~ In pattern_type ["checkerboard"; "gradient"; "zeros"; "ones";
                      "random_patterns"]%string ->
   generate_pattern_binary_file pattern_type size_bytes g = Ok (None, g)).
Proof.
  assert (Hconst : forall v, 0 <= v <= 255 ->
            exists bs,
              bytearray (py_repeat v size_bytes) = Ok bs /\
              len bs = Z.max 0 size_bytes).
  { intros v Hv.
    destruct (bytearray_ok (py_repeat v size_bytes)) as (bs & E & _).
    { apply Forall_forall. intros w Hw. apply repeat_spec in Hw. now subst. }
    exists bs. split; [exact E|]. rewrite (bytearray_len _ _ E).
    unfold len, py_repeat. rewrite repeat_length. lia. }
  split; [|split].
  - unfold generate_random_binary_file. unfold bindM at 1.
    set (g0 := match seed with None => g | Some s => seeded s end).
    assert (Eseed : (match seed with
                     | None => Ok (tt, g)
                     | Some s => Ok (tt, seeded s)
                     end) = Ok (tt, g0)) by (now destruct seed).
    rewrite Eseed.
    destruct (random_values_ok (py_range size_bytes) g0)
      as (vs & g' & E & Hlen & Hvs).
    destruct (bytearray_ok vs Hvs) as (bs & Eb & _).
    exists bs, g'. unfold bindM, liftM. rewrite E, Eb.
    split; [reflexivity|]. rewrite (bytearray_len _ _ Eb).
    unfold len. rewrite Hlen. apply len_py_range.
  - unfold generate_pattern_binary_file.
    intros [<- | [<- | [<- | [<- | [<- | []]]]]];
      cbn [String.eqb Ascii.eqb Bool.eqb].
    + destruct (Hconst 170 ltac:(lia)) as (bs & E & Hl).
      exists bs, g. unfold bindM, liftM. rewrite E. now split.
    + destruct (bytearray_ok (map (fun i => i mod 256) (py_range size_bytes)))
        as (bs & E & _).
      { apply Forall_forall. intros w Hw.
        apply in_map_iff in Hw as (i & <- & _).
        pose proof (Z.mod_pos_bound i 256 ltac:(lia)). lia. }
      exists bs, g. unfold bindM, liftM. rewrite E. split; [reflexivity|].
      rewrite (bytearray_len _ _ E). unfold len. rewrite length_map.
      apply len_py_range.
    + destruct (Hconst 0 ltac:(lia)) as (bs & E & Hl).
      exists bs, g. unfold bindM, liftM. rewrite E. now split.
    + destruct (Hconst 255 ltac:(lia)) as (bs & E & Hl).
      exists bs, g. unfold bindM, liftM. rewrite E. now split.
    + destruct (random_patterns_ok (py_range size_bytes) [] g)
        as (bs & g' & E & Hlen).
      exists bs, g'. unfold bindM. rewrite E. split; [reflexivity|].
      unfold len. rewrite Hlen. apply len_py_range.
  - intros Hout. unfold generate_pattern_binary_file.
    destruct (String.eqb_spec pattern_type "checkerboard") as [->|_].
    { exfalso. apply Hout. now left. }
    destruct (String.eqb_spec pattern_type "gradient") as [->|_].
    { exfalso. apply Hout. right. now left. }
    destruct (String.eqb_spec pattern_type "zeros") as [->|_].
    { exfalso. apply Hout. do 2 right. now left. }
    destruct (String.eqb_spec pattern_type "ones") as [->|_].
    { exfalso. apply Hout. do 3 right. now left. }
    destruct (String.eqb_spec pattern_type "random_patterns") as [->|_].
    { exfalso. apply Hout. do 4 right. now left. }
    reflexivity.
Qed.

End GeneratorFacts.

Lemma generators_write_size_bytes_witness :
  In "random_patterns"%string
     ["checkerboard"; "gradient"; "zeros"; "ones"; "random_patterns"]%string
  /\
  exists bs g',
    generate_pattern_binary_file (R := lcg_random) "random_patterns" 9 5 =
      Ok (Some bs, g') /\
    len bs = Z.max 0 9.
Proof.
  assert (Hin : In "random_patterns"%string
                  ["checkerboard"; "gradient"; "zeros"; "ones";
                   "random_patterns"]%string)
    by (do 4 right; now left).
  split; [exact Hin|].
  destruct (generators_write_size_bytes (R := lcg_random) 9 None
              "random_patterns" 5) as (_ & H & _).
  exact (H Hin).
Defined.

(** ** The pattern files, as the mapper reads them *)

Lemma bytearray_repeat v b n :
  to_byte v = Ok b -> bytearray (repeat v n) = Ok (repeat b n).
Proof.
  intros E. induction n as [|n IH]; cbn; [reflexivity|].
  rewrite E. cbn [res_bind]. rewrite IH. reflexivity.
Qed.

Lemma stream_repeat_const b v n :
  map (bit_of (byte_val b)) (py_range 8) = repeat v 8 ->
  stream (repeat b n) = repeat v (8 * n).
Proof.
  intros E. induction n as [|n IH]; [reflexivity|].
  cbn [repeat]. rewrite stream_cons, E, IH, <- repeat_app.
  f_equal. lia.
Qed.

Lemma stream_checkerboard n :
  stream (repeat xaa n) =
  map (fun i => if Nat.even i then 1 else 0) (seq 0 (8 * n)).
Proof.
  induction n as [|n IH]; [reflexivity|].
  cbn [repeat]. rewrite stream_cons, IH.
  replace (8 * S n)%nat with (8 + 8 * n)%nat by lia.
  rewrite seq_app, map_app. f_equal.
  rewrite (seq_from (0 + 8)), map_map. apply map_ext. intros j. reflexivity.
Qed.

(** Read most significant bit first, as the mapper does, the "zeros" file
    is all 0 bits, the "ones" file all 1 bits, the "checkerboard" file the
    bits 1,0,1,0,... starting with 1, and byte [i] of the "gradient" file
    is [i % 256]. *)
Theorem pattern_files_as_bits {R : PyRandom} {RB : PyRandomBits R} size_bytes
    (g : rng) :
  (exists bs,
      generate_pattern_binary_file "zeros" size_bytes g = Ok (Some bs, g) /\
      stream bs = repeat 0 (8 * Z.to_nat size_bytes)) /\
  (exists bs,
      generate_pattern_binary_file "ones" size_bytes g = Ok (Some bs, g) /\
      stream bs = repeat 1 (8 * Z.to_nat size_bytes)) /\
  (exists bs,
      generate_pattern_binary_file "checkerboard" size_bytes g =
        Ok (Some bs, g) /\
      stream bs = map (fun i => if Nat.even i then 1 else 0)
                    (seq 0 (8 * Z.to_nat size_bytes))) /\
  (exists bs,
      generate_pattern_binary_file "gradient" size_bytes g =
        Ok (Some bs, g) /\
      map byte_val bs = map (fun i => i mod 256) (py_range size_bytes)).
Proof.
  unfold generate_pattern_binary_file. cbn [String.eqb Ascii.eqb Bool.eqb].
  unfold bindM, liftM, retM, py_repeat. repeat split.
  - rewrite (bytearray_repeat 0 x00 _ eq_refl). eexists.
    split; [reflexivity|]. now apply stream_repeat_const.
  - rewrite (bytearray_repeat 255 xff _ eq_refl). eexists.
    split; [reflexivity|]. now apply stream_repeat_const.
  - rewrite (bytearray_repeat 170 xaa _ eq_refl). eexists.
    split; [reflexivity|]. apply stream_checkerboard.
  - destruct (bytearray_ok (map (fun i => i mod 256) (py_range size_bytes)))
      as (bs & E & Hbs).
    { apply Forall_forall. intros w Hw.
      apply in_map_iff in Hw as (i & <- & _).
      pose proof (Z.mod_pos_bound i 256 ltac:(lia)). lia. }
    rewrite E. now exists bs.
Qed.

(** ** Packing bits into bytes and reading them back *)

Lemma getitem_middle (before chunk after : list Z) j :
  0 <= j < len chunk ->
  getitem (before ++ chunk ++ after) (len before + j) =
  Ok (nth (Z.to_nat j) chunk 0).
Proof.
  intros Hj. unfold len in *.
  replace (Z.of_nat (length before) + j)
    with (Z.of_nat (length before + Z.to_nat j)) by lia.
  rewrite (getitem_nat _ _ 0) by (rewrite !length_app; lia).
  rewrite app_nth2 by lia.
  replace (length before + Z.to_nat j - length before)%nat
    with (Z.to_nat j) by lia.
  now rewrite app_nth1 by lia.
Qed.

(** One group of eight binary digits becomes the byte whose bits, most
    significant first, are these digits. *)
Lemma pack_group before after b0 b1 b2 b3 b4 b5 b6 b7 :
  Forall (fun v => v = 0 \/ v = 1) [b0; b1; b2; b3; b4; b5; b6; b7] ->
  exists b,
    (byte <- pack_bits (before ++ [b0; b1; b2; b3; b4; b5; b6; b7] ++ after)
               (len before) (py_range 8) 0 ;;
     to_byte byte) = Ok b /\
    map (bit_of (byte_val b)) (py_range 8) = [b0; b1; b2; b3; b4; b5; b6; b7].
Proof.
  intros Hbits. rewrite range_8. cbn [pack_bits].
  rewrite !getitem_middle by (cbn; lia).
  cbn [res_bind Z.to_nat Pos.to_nat Pos.iter_op Nat.add nth].
  repeat match goal with
         | H : Forall _ (_ :: _) |- _ => inversion H; clear H; subst
         | H : _ \/ _ |- _ => destruct H; subst
         end;
    (eexists; split; vm_compute; reflexivity).
Qed.

Lemma pack_bytes_groups m :
  forall before rest bytes_data (p : nat),
    length before = (8 * p)%nat -> length rest = (8 * m)%nat ->
    Forall (fun v => v = 0 \/ v = 1) rest ->
    exists bs,
      pack_bytes (before ++ rest)
        (map (fun k => 8 * Z.of_nat (p + k)) (seq 0 m)) bytes_data =
      Ok (bytes_data ++ bs) /\
      stream bs = rest.
Proof.
  induction m as [|m IH]; intros before rest bytes_data p Hbefore Hrest Hbits.
  - destruct rest; [|discriminate]. exists []. cbn. now rewrite app_nil_r.
  - destruct rest as [|b0 [|b1 [|b2 [|b3 [|b4 [|b5 [|b6 [|b7 rest]]]]]]]];
      try (cbn in Hrest; lia).
    assert (Hgroup : Forall (fun v => v = 0 \/ v = 1)
                       [b0; b1; b2; b3; b4; b5; b6; b7] /\
                     Forall (fun v => v = 0 \/ v = 1) rest).
    { repeat match goal with
             | H : Forall _ (_ :: _) |- _ => inversion H; clear H; subst
             end.
      split; [|assumption].
      repeat (apply Forall_cons; [assumption|]). apply Forall_nil. }
    destruct Hgroup as [Hgroup Hrest'].
    destruct (pack_group before rest b0 b1 b2 b3 b4 b5 b6 b7 Hgroup)
      as (b & Eb & Hb).
    destruct (IH (before ++ [b0; b1; b2; b3; b4; b5; b6; b7]) rest
                (bytes_data ++ [b]) (S p)) as (bs & E & Hbs).
    { rewrite length_app, Hbefore. cbn [length]. lia. }
    { cbn [length] in Hrest. lia. }
    { exact Hrest'. }
    exists (b :: bs). split.
    + cbn [seq map pack_bytes].
      change (before ++ b0 :: b1 :: b2 :: b3 :: b4 :: b5 :: b6 :: b7 :: rest)
        with (before ++ [b0; b1; b2; b3; b4; b5; b6; b7] ++ rest) in *.
      replace (8 * Z.of_nat (p + 0)) with (len before)
        by (unfold len; lia).
      replace (Z.min 8 (len (before ++ [b0; b1; b2; b3; b4; b5; b6; b7] ++ rest)
                        - len before)) with 8.
      2:{ unfold len. rewrite !length_app. cbn [length]. lia. }
      unfold res_bind in Eb |- *.
      destruct (pack_bits (before ++ [b0; b1; b2; b3; b4; b5; b6; b7] ++ rest)
                  (len before) (py_range 8) 0) as [byte|e]; [|discriminate].
      rewrite Eb. rewrite <- seq_shift, map_map.
      rewrite <- !app_assoc in E. cbn [app] in E |- *.
      erewrite map_ext; [exact E|].
      intros k. cbn beta. f_equal. lia.
    + rewrite stream_cons, Hb, Hbs. reflexivity.
Qed.

Lemma py_range_step8_groups (k : nat) :
  py_range_step8 (Z.of_nat (8 * k)) =
  map (fun j => 8 * Z.of_nat (0 + j)) (seq 0 k).
Proof.
  unfold py_range_step8.
  replace (Z.to_nat ((Z.of_nat (8 * k) + 7) / 8)) with k; [reflexivity|].
  replace (Z.of_nat (8 * k) + 7) with (7 + Z.of_nat k * 8) by lia.
  rewrite Z.div_add by lia. change (7 / 8) with 0. lia.
Qed.

(** Round trip between the two programs: a file packed by the generator
    from binary digits, eight to a byte, is read back by the mapper as the
    same digits in the same order; laid out sequentially, digit [i] ends on
    the cell with row-major index [i]. *)
Theorem packed_bits_read_back bits (k : nat) dims fill_empty default_bit :
  Forall (fun v => v = 0 \/ v = 1) bits -> length bits = (8 * k)%nat ->
  positive dims ->
  exists bs r last,
    custom_distribution_bytes bits = Ok bs /\
    len bs = Z.of_nat k /\
    stream bs = bits /\
    binary_to_3d_sequential bs dims fill_empty default_bit =
      Ok (r, last, len bs) /\
    (forall i b,
        nth_error bits i = Some b -> Z.of_nat i < capacity dims ->
        nth_error r i = Some (decode dims (Z.of_nat i), b)).
Proof.
  intros Hbits Hlen Hpos.
  destruct (pack_bytes_groups k [] bits [] 0%nat eq_refl Hlen Hbits)
    as (bs & E & Hbs).
  cbn [app] in E.
  destruct (sequential_entries bs dims fill_empty default_bit Hpos)
    as (r & last & Er & Hentries & _).
  exists bs, r, last. split; [|split; [|split; [|split]]].
  - unfold custom_distribution_bytes, len. rewrite Hlen.
    now rewrite py_range_step8_groups.
  - pose proof (length_stream bs) as Hs. rewrite Hbs, Hlen in Hs.
    unfold len. lia.
  - exact Hbs.
  - exact Er.
  - intros i b Hb Hi. apply Hentries; [|exact Hi]. now rewrite Hbs.
Qed.

Lemma packed_bits_read_back_witness :
  Forall (fun v => v = 0 \/ v = 1) [1; 0; 1; 1; 0; 0; 0; 0] /\
  length [1; 0; 1; 1; 0; 0; 0; 0] = (8 * 1)%nat /\
  positive (2, 2, 2) /\
  exists bs r last,
    custom_distribution_bytes [1; 0; 1; 1; 0; 0; 0; 0] = Ok bs /\
    len bs = Z.of_nat 1 /\
    stream bs = [1; 0; 1; 1; 0; 0; 0; 0] /\
    binary_to_3d_sequential bs (2, 2, 2) true 0 = Ok (r, last, len bs).
Proof.
  assert (Hbits : Forall (fun v => v = 0 \/ v = 1) [1; 0; 1; 1; 0; 0; 0; 0])
    by (repeat constructor; lia).
  split; [exact Hbits|]. split; [reflexivity|]. split; [cbn; lia|].
  destruct (packed_bits_read_back [1; 0; 1; 1; 0; 0; 0; 0] 1 (2, 2, 2) true 0
              Hbits eq_refl ltac:(cbn; lia))
    as (bs & r & last & E & Hl & Hs & Er & _).
  now exists bs, r, last.
Defined.
